(** * NEC infrared remote decoder: embedding of [main.py] and [main_debug.py]

    The two MicroPython programs capture pulse timings on an input pin,
    decode them as an NEC frame, look the 4-byte code up in a dictionary
    and drive an output pin; [main_debug.py] adds a learning mode.

    Python integers are [Z], Python lists are [list], the dictionaries
    [button_codes] and [outputs] are [gmap]s, and the pin, the two tick
    counters and [print] are explicit parts of a world that the stateful
    functions thread through. *)

From Stdlib Require Import ZArith List Lia Bool.
From stdpp Require Import base option list gmap strings.

Local Open Scope Z_scope.

(** ** Python run-time conventions *)

Module Py.

(** The exceptions the modelled fragments can raise. *)
Inductive exn := IndexError | TypeError.

Inductive result (A : Type) :=
| Ok (a : A)
| Raise (e : exn).
Arguments Ok {A} a.
Arguments Raise {A} e.

Definition bind {A B} (m : result A) (f : A -> result B) : result B :=
  match m with
  | Ok a => f a
  | Raise e => Raise e
  end.

Definition rmap {A B} (f : A -> B) (m : result A) : result B :=
  bind m (fun a => Ok (f a)).

(** [l[i]] for a non-negative index. *)
Definition getitem {A} (l : list A) (i : nat) : result A :=
  match l !! i with
  | Some x => Ok x
  | None => Raise IndexError
  end.

(** [l[i:j]] for non-negative bounds; slices clamp, they never raise. *)
Definition slice {A} (l : list A) (i j : nat) : list A :=
  take (j - i) (drop i l).

Fixpoint range_from (start step count : nat) : list nat :=
  match count with
  | O => []
  | S c => start :: range_from (start + step) step c
  end.

(** [range(start, stop, step)] for a positive step. *)
Definition range (start stop step : nat) : list nat :=
  range_from start step (((stop - start) + (step - 1)) / step)%nat.

(** A [for] loop whose body may raise, collecting one value per index. *)
Fixpoint for_each {A B} (f : A -> result B) (l : list A) : result (list B) :=
  match l with
  | [] => Ok []
  | x :: l' => bind (f x) (fun y => bind (for_each f l') (fun ys => Ok (y :: ys)))
  end.

End Py.

Export Py.

#[global] Instance result_ret : MRet result := @Ok.
#[global] Instance result_bind : MBind result := fun A B f m => Py.bind m f.

(** ** [main.py]: the plain decoder *)

Module Main.

(** An element of the list [bits]: the integers [0] and [1], or the
    string ['?'] that marks a space of unrecognised length. *)
Inductive sym :=
| Bit (b : Z)
| Unknown.

Definition is_unknown (s : sym) : bool :=
  match s with
  | Unknown => true
  | Bit _ => false
  end.

Definition classify (low : Z) : sym :=
  if (400 <? low) && (low <? 700) then Bit 0
  else if (1500 <? low) && (low <? 1800) then Bit 1
  else Unknown.

(** [8500 < pulses[0] < 9500 and 4000 < pulses[1] < 5000] *)
Definition header_ok (pulses : list Z) : result bool :=
  p0 ← getitem pulses 0;
  if (8500 <? p0) && (p0 <? 9500) then
    (p1 ← getitem pulses 1; Ok ((4000 <? p1) && (p1 <? 5000)))
  else Ok false.

(** The inner loop [for b in ...: byte = (byte << 1) | b]; [|] on an
    integer and a string raises. *)
Fixpoint shift_in (byte : Z) (bs : list sym) : result Z :=
  match bs with
  | [] => Ok byte
  | Bit b :: bs' => shift_in (Z.lor (Z.shiftl byte 1) b) bs'
  | Unknown :: _ => Raise TypeError
  end.

Definition to_bytes (bits : list sym) : result (list Z) :=
  for_each (fun i => shift_in 0 (slice bits i (i + 8))) (range 0 32 8).

Definition decode_nec (pulses : list Z) : result (option (list Z)) :=
  if (length pulses <? 66)%nat then Ok None
  else
    h ← header_ok pulses;
    if negb h then Ok None
    else
      (bits ← for_each (fun i => low ← getitem pulses (i + 1); Ok (classify low))
                       (range 2 66 2);
       if existsb is_unknown bits then Ok None
       else (hex_code ← to_bytes bits; Ok (Some hex_code))).

End Main.

(** ** The hardware the programs talk to

    [machine.Pin] and [time] are MicroPython's, not this repository's.
    The input pin and the two tick counters are oracles: the n-th call
    of [ir_pin.value()], [time.ticks_ms()] or [time.ticks_us()] returns
    the n-th entry of the corresponding sequence, so every behaviour of
    the line and of the clock is some world.  What the program prints,
    and what it writes to its output pins, is appended to [console]. *)

Module Hw.

Inductive event :=
| EvFewPulses (n : nat)
| EvBadHeader (p0 p1 : Z)
| EvBadBit (i : nat) (space_duration : Z)
| EvFewBits (n : nat)
| EvDbgCount (n : nat)
| EvDbgHeader (p0 p1 : Z)
| EvDbgCode (code : list Z)
| EvDbgNoCode
| EvDbgFirst (pulses : list Z)
| EvUnknownButton (name : string)
| EvLearnStart (name : string)
| EvSaved (code : list Z) (name : string)
| EvTimeout
| EvDetected (name : string)
| EvUnknownCode (code : list Z)
| EvPinOn (name : string)
| EvPinOff (name : string)
| EvTriggered (name : string) (duration_ms : Z).

Record world := World {
  pin_trace : nat -> bool;   (* level read by the n-th [ir_pin.value()] *)
  pin_pos : nat;
  ms_clock : nat -> Z;       (* milliseconds elapsed at the n-th [ticks_ms()] *)
  ms_pos : nat;
  us_clock : nat -> Z;       (* microseconds elapsed at the n-th [ticks_us()] *)
  us_pos : nat;
  console : list event
}.

(** MicroPython's tick counters wrap at [TICKS_PERIOD], a power of two
    ([2^30] on the 32-bit ports); [ticks_diff] is the signed difference
    modulo the period. *)
Definition TICKS_PERIOD : Z := 2 ^ 30.
Definition TICKS_HALF : Z := TICKS_PERIOD / 2.

Definition ticks_diff (t1 t2 : Z) : Z :=
  (t1 - t2 + TICKS_HALF) mod TICKS_PERIOD - TICKS_HALF.

Definition pin_value (w : world) : bool * world :=
  (pin_trace w (pin_pos w),
   World (pin_trace w) (S (pin_pos w)) (ms_clock w) (ms_pos w)
         (us_clock w) (us_pos w) (console w)).

Definition ticks_ms (w : world) : Z * world :=
  (ms_clock w (ms_pos w) mod TICKS_PERIOD,
   World (pin_trace w) (pin_pos w) (ms_clock w) (S (ms_pos w))
         (us_clock w) (us_pos w) (console w)).

Definition ticks_us (w : world) : Z * world :=
  (us_clock w (us_pos w) mod TICKS_PERIOD,
   World (pin_trace w) (pin_pos w) (ms_clock w) (ms_pos w)
         (us_clock w) (S (us_pos w)) (console w)).

(** Sleeping reads nothing; the time it takes shows in the later
    readings of the clocks. *)
Definition sleep_ms (n : Z) (w : world) : world := w.

Definition print (evs : list event) (w : world) : world :=
  World (pin_trace w) (pin_pos w) (ms_clock w) (ms_pos w)
        (us_clock w) (us_pos w) (console w ++ evs).

(** *** [read_pulses], the same text in both files

    Each [while] loop runs on [fuel]: [None] means that the loop was
    still polling after [fuel] iterations. *)

(** [while ir_pin.value() == 1: if ticks_diff(ticks_ms(), start_time) >
    timeout_ms: return []].  [false] is the early [return []]. *)
Fixpoint wait_low (fuel : nat) (timeout_ms start_time : Z) (w : world)
  : option (bool * world) :=
  match fuel with
  | O => None
  | S f =>
    let '(v, w1) := pin_value w in
    if v then
      let '(now, w2) := ticks_ms w1 in
      if ticks_diff now start_time >? timeout_ms then Some (false, w2)
      else wait_low f timeout_ms start_time w2
    else Some (true, w1)
  end.

(** [while ir_pin.value() == level: if ticks_diff(ticks_us(), t0) >
    10000: return pulses].  [false] is the early [return pulses]. *)
Fixpoint wait_change (fuel : nat) (level : bool) (t0 : Z) (w : world)
  : option (bool * world) :=
  match fuel with
  | O => None
  | S f =>
    let '(v, w1) := pin_value w in
    if Bool.eqb v level then
      let '(now, w2) := ticks_us w1 in
      if ticks_diff now t0 >? 10000 then Some (false, w2)
      else wait_change f level t0 w2
    else Some (true, w1)
  end.

(** [for _ in range(100): ...], with [n] iterations still to run. *)
Fixpoint capture (fuel : nat) (n : nat) (pulses : list Z) (w : world)
  : option (list Z * world) :=
  match n with
  | O => Some (pulses, w)
  | S n' =>
    let '(t0, w1) := ticks_us w in
    let '(level, w2) := pin_value w1 in
    match wait_change fuel level t0 w2 with
    | None => None
    | Some (false, w3) => Some (pulses, w3)
    | Some (true, w3) =>
      let '(now, w4) := ticks_us w3 in
      let duration := ticks_diff now t0 in
      capture fuel n' (pulses ++ [duration]) w4
    end
  end.

Definition read_pulses (fuel : nat) (timeout_ms : Z) (w : world)
  : option (list Z * world) :=
  let '(start_time, w1) := ticks_ms w in
  match wait_low fuel timeout_ms start_time w1 with
  | None => None
  | Some (false, w2) => Some ([], w2)
  | Some (true, w2) => capture fuel 100 [] w2
  end.

End Hw.

Export Hw.

(** ** [main_debug.py]: the class [IRRemoteDecoder] *)

Module Debug.

(** The fields of an [IRRemoteDecoder] that the methods read or write.
    [outputs] maps each known button name to its pin number, and
    [button_codes] maps [tuple(code)] to a button name. *)
Record decoder := Decoder {
  outputs : gmap string Z;
  button_codes : gmap (list Z) string;
  debug_mode : bool;
  learning_mode : bool;
  learning_button : string
}.

Definition default_outputs : gmap string Z :=
  <["POWER" := 0]> (<["UP" := 1]> (<["DOWN" := 2]>
  (<["LEFT" := 3]> (<["RIGHT" := 4]> (<["MENU" := 5]> ∅))))).

Definition default_codes : gmap (list Z) string :=
  <[ [0x61; 0xD6; 0x48; 0xB7] := "POWER"%string ]>
  (<[ [0x61; 0xD6; 0xD8; 0x27] := "UP"%string ]>
  (<[ [0x61; 0xD6; 0x58; 0xA7] := "DOWN"%string ]>
  (<[ [0x61; 0xD6; 0x20; 0xDF] := "LEFT"%string ]>
  (<[ [0x61; 0xD6; 0x60; 0x9F] := "RIGHT"%string ]>
  (<[ [0x61; 0xD6; 0xA0; 0x5F] := "MENU"%string ]> ∅))))).

(** [__init__] with its default arguments. *)
Definition init : decoder :=
  Decoder default_outputs default_codes false false "".

Definition set_learning (d : decoder) (mode : bool) (name : string) : decoder :=
  Decoder (outputs d) (button_codes d) (debug_mode d) mode name.

Definition set_learning_mode (d : decoder) (mode : bool) : decoder :=
  Decoder (outputs d) (button_codes d) (debug_mode d) mode (learning_button d).

(** [self.button_codes[key] = name] *)
Definition set_code (d : decoder) (key : list Z) (name : string) : decoder :=
  Decoder (outputs d) (<[key := name]> (button_codes d)) (debug_mode d)
          (learning_mode d) (learning_button d).

(** [key in self.button_codes] and [self.button_codes[key]] *)
Definition lookup (d : decoder) (key : list Z) : option string :=
  button_codes d !! key.

Definition dbg (d : bool) (evs : list event) : list event :=
  if d then evs else [].

Definition header_ok (pulses : list Z) : result bool :=
  p0 ← getitem pulses 0;
  if (8500 <? p0) && (p0 <? 9500) then
    (p1 ← getitem pulses 1; Ok ((4000 <? p1) && (p1 <? 5000)))
  else Ok false.

(** The loop [for i in range(2, 66, 2)] over the indices still to
    visit.  [Some bits] is the list at the end of the loop (or at its
    [break]); [None] is the [return None] inside the loop. *)
Fixpoint collect_bits (debug : bool) (pulses : list Z) (idx : list nat)
         (bits : list Z) : result (option (list Z) * list event) :=
  match idx with
  | [] => Ok (Some bits, [])
  | i :: idx' =>
    if (length pulses <=? i + 1)%nat then Ok (Some bits, [])
    else
      space_duration ← getitem pulses (i + 1);
      if (400 <? space_duration) && (space_duration <? 700) then
        collect_bits debug pulses idx' (bits ++ [0])
      else if (1500 <? space_duration) && (space_duration <? 1800) then
        collect_bits debug pulses idx' (bits ++ [1])
      else Ok (None, dbg debug [EvBadBit i space_duration])
  end.

Definition shift_in (byte : Z) (bs : list Z) : Z :=
  fold_left (fun byte bit => Z.lor (Z.shiftl byte 1) bit) bs byte.

Definition to_bytes (bits : list Z) : list Z :=
  map (fun i => shift_in 0 (slice bits i (i + 8))) (range 0 32 8).

(** [decode_nec] returns its result together with what it printed. *)
Definition decode_nec (debug : bool) (pulses : list Z)
  : result (option (list Z) * list event) :=
  if (length pulses <? 66)%nat then
    Ok (None, dbg debug [EvFewPulses (length pulses)])
  else
    h ← header_ok pulses;
    if negb h then
      (if debug then
         (p0 ← getitem pulses 0; p1 ← getitem pulses 1;
          Ok (None, [EvBadHeader p0 p1]))
       else Ok (None, []))
    else
      (r ← collect_bits debug pulses (range 2 66 2) [];
       match r with
       | (None, evs) => Ok (None, evs)
       | (Some bits, evs) =>
         if (length bits <? 32)%nat then
           Ok (None, evs ++ dbg debug [EvFewBits (length bits)])
         else Ok (Some (to_bytes bits), evs)
       end).

Definition print_debug_info (pulses : list Z) (code : option (list Z))
  : list event :=
  [EvDbgCount (length pulses)]
  ++ match pulses with
     | p0 :: p1 :: _ => [EvDbgHeader p0 p1]
     | _ => []
     end
  ++ match code with
     | Some (b :: c) => [EvDbgCode (b :: c)]
     | _ => [EvDbgNoCode]
     end
  ++ (if (10 <? length pulses)%nat then [EvDbgFirst (take 10 pulses)] else []).

Definition trigger_output (d : decoder) (button_name : string)
           (duration_ms : Z) (w : world) : world :=
  match outputs d !! button_name with
  | Some _ =>
    print [EvTriggered button_name duration_ms]
          (print [EvPinOff button_name]
                 (sleep_ms duration_ms (print [EvPinOn button_name] w)))
  | None => w
  end.

(** [process_ir_signal]: the outer [option] is the fuel of
    [read_pulses]; the value is [None], a button name or ["UNKNOWN"]. *)
Definition process_ir_signal (fuel : nat) (d : decoder) (w : world)
  : option (result (option string) * decoder * world) :=
  match read_pulses fuel 100 w with
  | None => None
  | Some ([], w1) => Some (Ok None, d, w1)
  | Some (pulses, w1) =>
    match decode_nec (debug_mode d) pulses with
    | Raise e => Some (Raise e, d, w1)
    | Ok (code, evs) =>
      let w2 := print evs w1 in
      let w3 := if debug_mode d
                then print (print_debug_info pulses code) w2 else w2 in
      match code with
      | Some (b :: c) =>
        let key := b :: c in
        if learning_mode d then
          Some (Ok (Some (learning_button d)),
                set_learning_mode (set_code d key (learning_button d)) false,
                print [EvSaved key (learning_button d)] w3)
        else
          match lookup d key with
          | Some button_name =>
            Some (Ok (Some button_name), d,
                  trigger_output d button_name 400
                                 (print [EvDetected button_name] w3))
          | None =>
            Some (Ok (Some "UNKNOWN"%string), d, print [EvUnknownCode key] w3)
          end
      | _ => Some (Ok None, d, w3)
      end
    end
  end.

(** The loop of [learn_button], [k] iterations at most:
    [while self.learning_mode and ticks_diff(ticks_ms(), start_time) <
    10000: self.process_ir_signal(); time.sleep_ms(10)]. *)
Fixpoint learn_loop (k fuel : nat) (start_time : Z) (d : decoder) (w : world)
  : option (result unit * decoder * world) :=
  match k with
  | O => None
  | S k' =>
    if learning_mode d then
      let '(now, w1) := ticks_ms w in
      if ticks_diff now start_time <? 10000 then
        match process_ir_signal fuel d w1 with
        | None => None
        | Some (Raise e, d2, w2) => Some (Raise e, d2, w2)
        | Some (Ok _, d2, w2) =>
          learn_loop k' fuel start_time d2 (sleep_ms 10 w2)
        end
      else Some (Ok tt, d, w1)
    else Some (Ok tt, d, w)
  end.

(** The start of [learn_button], up to the reading of [start_time]:
    the check of the name and the setting of the two learning fields.
    [None] is the early [return False]. *)
Definition arm (d : decoder) (button_name : string) (w : world)
  : option (decoder * Z) * world :=
  match outputs d !! button_name with
  | None => (None, print [EvUnknownButton button_name] w)
  | Some _ =>
    let w1 := print [EvLearnStart button_name] w in
    let d1 := set_learning d true button_name in
    let '(start_time, w2) := ticks_ms w1 in
    (Some (d1, start_time), w2)
  end.

Definition learn_button (fuel : nat) (d : decoder) (button_name : string)
           (w : world) : option (result bool * decoder * world) :=
  match arm d button_name w with
  | (None, w1) => Some (Ok false, d, w1)
  | (Some (d1, start_time), w2) =>
    match learn_loop fuel fuel start_time d1 w2 with
    | None => None
    | Some (Raise e, d2, w3) => Some (Raise e, d2, w3)
    | Some (Ok _, d2, w3) =>
      if learning_mode d2 then
        Some (Ok false, set_learning_mode d2 false, print [EvTimeout] w3)
      else Some (Ok true, d2, w3)
    end
  end.

End Debug.

(** ** What the specification's words say the decoder computes *)

Module Spec.

Definition is_zero_space (s : Z) : Prop := 400 < s < 700.
Definition is_one_space (s : Z) : Prop := 1500 < s < 1800.

(** The value of a group of bits read most significant bit first. *)
Fixpoint msb_value (bs : list Z) : Z :=
  match bs with
  | [] => 0
  | b :: r => b * 2 ^ Z.of_nat (length r) + msb_value r
  end.

(** Four bytes, each from the next group of eight bits. *)
Definition pack_msb_first (bits : list Z) : list Z :=
  [ msb_value (take 8 bits);
    msb_value (take 8 (drop 8 bits));
    msb_value (take 8 (drop 16 bits));
    msb_value (take 8 (drop 24 bits)) ].

(** A frame with header (9000, 4500), arbitrary marks, and a space of
    550 or 1650 microseconds for each bit. *)
Definition nec_frame (mark : nat -> Z) (bits : list Z) : list Z :=
  9000 :: 4500
  :: concat (imap (fun k b => [mark k; if b =? 0 then 550 else 1650]) bits).

Definition example_bits : list Z :=
  [0;1;1;0;0;0;0;1; 1;1;0;1;0;1;1;0; 0;1;0;0;1;0;0;0; 1;0;1;1;0;1;1;1].

End Spec.

(** ** A closed form of both decoders

    [decode_fun] is the function that both [decode_nec] are shown to
    compute; it is used in the proofs only. *)

Definition bit_of (s : Z) : option Z :=
  if (400 <? s) && (s <? 700) then Some 0
  else if (1500 <? s) && (s <? 1800) then Some 1
  else None.

Fixpoint bits_of (ss : list Z) : option (list Z) :=
  match ss with
  | [] => Some []
  | s :: r =>
    match bit_of s, bits_of r with
    | Some b, Some bs => Some (b :: bs)
    | _, _ => None
    end
  end.

Definition head_ok (pulses : list Z) : bool :=
  (8500 <? pulses !!! 0%nat) && (pulses !!! 0%nat <? 9500)
  && ((4000 <? pulses !!! 1%nat) && (pulses !!! 1%nat <? 5000)).

Definition spaces_at (pulses : list Z) (idx : list nat) : list Z :=
  map (fun i => pulses !!! (i + 1)%nat) idx.

Definition decode_fun (pulses : list Z) : option (list Z) :=
  if (length pulses <? 66)%nat then None
  else if head_ok pulses then
    Debug.to_bytes <$> bits_of (spaces_at pulses (range 2 66 2))
  else None.


(** ** Environments and runs the statements speak about *)

(** A clock that advances: successive readings never go back, are at
    most [step] apart, and pass every bound. *)
Record advancing (step : Z) (clock : nat -> Z) : Prop := {
  adv_mono : forall n, clock n <= clock (S n);
  adv_step : forall n, clock (S n) - clock n <= step;
  adv_far : forall n t, exists m, (n <= m)%nat /\ t <= clock m
}.

(** The worlds that differ from [w] in the positions and the console
    only: the line and the clocks behave as in [w]. *)
Definition same_env (w w' : world) : Prop :=
  pin_trace w' = pin_trace w /\ ms_clock w' = ms_clock w
  /\ us_clock w' = us_clock w.

(** No capture taken in the environment of [w] decodes. *)
Definition undecodable (w : world) : Prop :=
  forall fuel w1 pulses w2,
    same_env w w1 -> read_pulses fuel 100 w1 = Some (pulses, w2) ->
    decode_fun pulses = None.

(** The cycles of the learning loop, from the loop's test on: [hears]
    holds when some cycle that starts before the deadline captures
    pulses that decode to [code], every cycle before it having returned
    nothing. *)
Inductive hears (fuel : nat) (start_time : Z) (d : Debug.decoder)
  : world -> list Z -> Prop :=
| hears_now w pulses w' code :
    ticks_diff (fst (ticks_ms w)) start_time < 10000 ->
    read_pulses fuel 100 (snd (ticks_ms w)) = Some (pulses, w') ->
    decode_fun pulses = Some code ->
    hears fuel start_time d w code
| hears_later w w' code :
    ticks_diff (fst (ticks_ms w)) start_time < 10000 ->
    Debug.process_ir_signal fuel d (snd (ticks_ms w)) = Some (Ok None, d, w') ->
    hears fuel start_time d (sleep_ms 10 w') code ->
    hears fuel start_time d w code.

(** [expires] holds when every cycle that starts before the deadline
    returns nothing and the loop's test then finds the deadline passed,
    in the world [w']. *)
Inductive expires (fuel : nat) (start_time : Z) (d : Debug.decoder)
  : world -> world -> Prop :=
| expires_now w :
    10000 <= ticks_diff (fst (ticks_ms w)) start_time ->
    expires fuel start_time d w (snd (ticks_ms w))
| expires_later w w' w'' :
    ticks_diff (fst (ticks_ms w)) start_time < 10000 ->
    Debug.process_ir_signal fuel d (snd (ticks_ms w)) = Some (Ok None, d, w') ->
    expires fuel start_time d (sleep_ms 10 w') w'' ->
    expires fuel start_time d w w''.

(** ** Concrete worlds *)

Module Examples.

(** The readings of the microsecond counter when the line changes
    right after each level is read: one reading at the start of a
    pulse and one at its end. *)
Fixpoint stamps (t : Z) (durations : list Z) : list Z :=
  match durations with
  | [] => []
  | d :: r => t :: (t + d) :: stamps (t + d) r
  end.

(** A line that is low at the first poll and then changes at every
    poll, timed so that the pulses last [durations]. *)
Definition sending (durations : list Z) : world :=
  World (fun n => Nat.odd n) 0
        (fun n => Z.of_nat n) 0
        (fun n => nth n (stamps 0 durations) 0) 0 [].

(** A line that stays high, with clocks that gain [step] per reading. *)
Definition idle (step : Z) : world :=
  World (fun _ => true) 0
        (fun n => step * Z.of_nat n) 0
        (fun n => step * Z.of_nat n) 0 [].

Definition frame : list Z :=
  Spec.nec_frame (fun _ => 560) Spec.example_bits.

Definition burst : list Z := frame ++ replicate 34 560.

Definition short_frame : list Z := take 40 frame.

End Examples.

(** ** [main.py]: the tables and the main loop *)

Module MainLoop.

Definition outputs : gmap string Z :=
  <["POWER" := 0]> (<["UP" := 1]> (<["DOWN" := 2]>
  (<["LEFT" := 3]> (<["RIGHT" := 4]> (<["MENU" := 5]> ∅))))).

Definition button_codes : gmap (list Z) string :=
  <[ [0x61; 0xD6; 0x48; 0xB7] := "POWER"%string ]>
  (<[ [0x61; 0xD6; 0xD8; 0x27] := "UP"%string ]>
  (<[ [0x61; 0xD6; 0x58; 0xA7] := "DOWN"%string ]>
  (<[ [0x61; 0xD6; 0x20; 0xDF] := "LEFT"%string ]>
  (<[ [0x61; 0xD6; 0x60; 0x9F] := "RIGHT"%string ]>
  (<[ [0x61; 0xD6; 0xA0; 0x5F] := "MENU"%string ]> ∅))))).

(** What can end the loop: an exception of [decode_nec], or the
    [KeyError] of [outputs[name]]. *)
Inductive failure :=
| DecodeError (e : exn)
| KeyError (name : string).

(** One iteration of [while True], over the two module-level
    dictionaries.  [EvDetected name] is the line that names the button,
    [time.sleep(0.4)] is 400 milliseconds. *)
Definition cycle (outs : gmap string Z) (codes : gmap (list Z) string)
           (fuel : nat) (w : world) : option (option failure * world) :=
  match read_pulses fuel 100 w with
  | None => None
  | Some ([], w1) => Some (None, w1)
  | Some (pulses, w1) =>
    match Main.decode_nec pulses with
    | Raise e => Some (Some (DecodeError e), w1)
    | Ok (Some (b :: c)) =>
      let key := b :: c in
      match codes !! key with
      | Some name =>
        let w2 := print [EvDetected name] w1 in
        match outs !! name with
        | Some _ =>
          Some (None,
                print [EvPinOff name] (sleep_ms 400 (print [EvPinOn name] w2)))
        | None => Some (Some (KeyError name), w2)
        end
      | None => Some (None, w1)
      end
    | Ok _ => Some (None, w1)
    end
  end.

(** The first [n] iterations of the loop, which has no exit of its own. *)
Fixpoint main_loop (n fuel : nat) (w : world) : option (option failure * world) :=
  match n with
  | O => Some (None, w)
  | S n' =>
    match cycle outputs button_codes fuel w with
    | None => None
    | Some (Some f, w1) => Some (Some f, w1)
    | Some (None, w1) => main_loop n' fuel w1
    end
  end.

End MainLoop.

(** ** [main_debug.py]: the loop of [run_continuous] *)

Module DebugRun.

(** The first [n] iterations of [while True: self.process_ir_signal();
    time.sleep_ms(50)]; the loop ends by [KeyboardInterrupt] only. *)
Fixpoint continuous_cycles (n fuel : nat) (d : Debug.decoder) (w : world)
  : option (result unit * Debug.decoder * world) :=
  match n with
  | O => Some (Ok tt, d, w)
  | S n' =>
    match Debug.process_ir_signal fuel d w with
    | None => None
    | Some (Raise e, d1, w1) => Some (Raise e, d1, w1)
    | Some (Ok _, d1, w1) => continuous_cycles n' fuel d1 (sleep_ms 50 w1)
    end
  end.

End DebugRun.

(** ** Notions used to state what the programs do *)

(** A frame that carries [bits]: long enough, header in its windows,
    and each of the 32 spaces in the window of its bit. *)
Definition valid_frame (pulses bits : list Z) : Prop :=
  (66 <= length pulses)%nat
  /\ (exists p0 p1, pulses !! 0%nat = Some p0 /\ 8500 < p0 < 9500
                    /\ pulses !! 1%nat = Some p1 /\ 4000 < p1 < 5000)
  /\ length bits = 32%nat
  /\ forall k b, bits !! k = Some b ->
       exists s, pulses !! (3 + 2 * k)%nat = Some s
                 /\ ((Spec.is_zero_space s /\ b = 0)
                     \/ (Spec.is_one_space s /\ b = 1)).

(** A duration that [read_pulses] can record when the microsecond
    counter gains at most [step] per reading. *)
Definition duration_ok (step d : Z) : Prop := 0 <= d <= 10000 + step.

(** The writes to the output pins among what a world has recorded. *)
Definition is_pin_event (e : event) : bool :=
  match e with
  | EvPinOn _ | EvPinOff _ => true
  | _ => false
  end.

Definition pin_events (w : world) : list event :=
  List.filter is_pin_event (console w).

(** One output driven: switched on, then off. *)
Definition pulse_of (name : string) : list event :=
  [EvPinOn name; EvPinOff name].

(** What [main.py] records for one recognised button: the line that
    names it, then its pin on and off. *)
Definition press (name : string) : list event :=
  [EvDetected name; EvPinOn name; EvPinOff name].

(** Every name that a code is bound to has an output pin. *)
Definition names_have_pins (d : Debug.decoder) : Prop :=
  forall key name,
    Debug.lookup d key = Some name -> is_Some (Debug.outputs d !! name).

(** What a cycle has done to the decoder since learning was armed:
    nothing, or bound one code of four bytes to the target, printed it
    and left learning mode. *)
Definition learned (d d' : Debug.decoder) (w' : world) : Prop :=
  d' = d
  \/ exists code,
       length code = 4%nat
       /\ d' = Debug.set_learning_mode
                 (Debug.set_code d code (Debug.learning_button d)) false
       /\ EvSaved code (Debug.learning_button d) ∈ console w'.

Module Examples2.

(** A line that changes at every poll, with clocks that gain [step]
    per reading. *)
Definition ticking (step : Z) : world :=
  World (fun n => Nat.odd n) 0
        (fun n => step * Z.of_nat n) 0
        (fun n => step * Z.of_nat n) 0 [].

(** The line of [Examples.sending], with [console] as given. *)
Definition sending_after (durations : list Z) (c : list event) : world :=
  World (fun n => Nat.odd n) 0
        (fun n => Z.of_nat n) 0
        (fun n => nth n (Examples.stamps 0 durations) 0) 0 c.

End Examples2.
(** * Properties of the decoders *)

Section DecoderFacts.

Implicit Types (pulses : list Z) (i k : nat).

Lemma bind_ok {A B} (a : A) (f : A -> result B) : Ok a ≫= f = f a.
Proof. reflexivity. Qed.

Lemma getitem_lt {A} `{!Inhabited A} (l : list A) i :
  (i < length l)%nat -> getitem l i = Ok (l !!! i).
Proof.
  intros H. unfold getitem.
  by rewrite (list_lookup_lookup_total_lt l i H).
Qed.

Lemma for_each_ok {A B} (f : A -> result B) (g : A -> B) (l : list A) :
  Forall (fun x => f x = Ok (g x)) l -> for_each f l = Ok (map g l).
Proof.
  induction 1 as [|x l Hx _ IH]; simpl; [done|].
  by rewrite Hx, IH.
Qed.

Lemma range_2_66_positions :
  range 2 66 2 = map (fun k => (2 + 2 * k)%nat) (seq 0 32).
Proof. reflexivity. Qed.

Lemma range_2_66_bound : Forall (fun i => (i + 1 < 66)%nat) (range 2 66 2).
Proof.
  rewrite range_2_66_positions. apply Forall_forall. intros i Hi.
  apply list_elem_of_In, in_map_iff in Hi as (k & <- & Hk).
  apply in_seq in Hk. lia.
Qed.

Lemma header_ok_main pulses :
  (66 <= length pulses)%nat -> Main.header_ok pulses = Ok (head_ok pulses).
Proof.
  intros H. unfold Main.header_ok, head_ok.
  rewrite (getitem_lt pulses 0) by lia. simpl.
  destruct ((8500 <? pulses !!! 0%nat) && (pulses !!! 0%nat <? 9500)); [|done].
  by rewrite (getitem_lt pulses 1) by lia.
Qed.

Lemma header_ok_debug pulses : Debug.header_ok pulses = Main.header_ok pulses.
Proof. reflexivity. Qed.

Lemma classify_bit_of s :
  Main.classify s = match bit_of s with
                    | Some b => Main.Bit b
                    | None => Main.Unknown
                    end.
Proof.
  unfold Main.classify, bit_of.
  by repeat match goal with |- context [if ?c then _ else _] => destruct c end.
Qed.

Lemma bit_of_01 s b : bit_of s = Some b -> b = 0 \/ b = 1.
Proof.
  unfold bit_of.
  repeat match goal with |- context [if ?c then _ else _] => destruct c end;
    intros [= <-]; auto.
Qed.

Lemma bits_of_01 ss bs : bits_of ss = Some bs -> Forall (fun b => b = 0 \/ b = 1) bs.
Proof.
  revert bs. induction ss as [|s r IH]; simpl; intros bs.
  - intros [= <-]. constructor.
  - destruct (bit_of s) as [b|] eqn:Hb; [|done].
    destruct (bits_of r) as [bs'|]; [|done]. intros [= <-].
    constructor; [by eapply bit_of_01 | by apply IH].
Qed.

Lemma bits_of_length ss bs : bits_of ss = Some bs -> length bs = length ss.
Proof.
  revert bs. induction ss as [|s r IH]; simpl; intros bs.
  - by intros [= <-].
  - destruct (bit_of s); [|done]. destruct (bits_of r) as [bs'|]; [|done].
    intros [= <-]. simpl. f_equal. by apply IH.
Qed.

(** The list [bits] of [main.py] holds no ['?'] exactly when every
    space has a bit. *)
Lemma classify_all ss :
  match bits_of ss with
  | Some bs => map Main.classify ss = map Main.Bit bs
               /\ existsb Main.is_unknown (map Main.classify ss) = false
  | None => existsb Main.is_unknown (map Main.classify ss) = true
  end.
Proof.
  induction ss as [|s r IH]; simpl; [done|].
  rewrite classify_bit_of. destruct (bit_of s) as [b|]; simpl; [|done].
  destruct (bits_of r) as [bs|]; [|done].
  destruct IH as [-> ->]. done.
Qed.

Lemma shift_in_main byte (bs : list Z) :
  Main.shift_in byte (map Main.Bit bs) = Ok (Debug.shift_in byte bs).
Proof.
  revert byte. induction bs as [|b r IH]; intros byte; simpl; [done|].
  apply IH.
Qed.

Lemma slice_map {A B} (f : A -> B) (l : list A) i j :
  slice (map f l) i j = map f (slice l i j).
Proof.
  unfold slice. change (map f) with (fmap (M:=list) f).
  by rewrite fmap_take, fmap_drop.
Qed.

Lemma to_bytes_main (bs : list Z) :
  Main.to_bytes (map Main.Bit bs) = Ok (Debug.to_bytes bs).
Proof.
  unfold Main.to_bytes, Debug.to_bytes. apply for_each_ok.
  apply Forall_forall. intros i _. by rewrite slice_map, shift_in_main.
Qed.

Lemma collect_spaces_main pulses (idx : list nat) :
  Forall (fun i => (i + 1 < length pulses)%nat) idx ->
  for_each (fun i => low ← getitem pulses (i + 1); Ok (Main.classify low)) idx
  = Ok (map Main.classify (spaces_at pulses idx)).
Proof.
  intros H. unfold spaces_at. rewrite map_map. apply for_each_ok.
  eapply Forall_impl; [exact H|]. intros i Hi. simpl.
  by rewrite getitem_lt.
Qed.

Theorem decode_nec_main_closed pulses :
  Main.decode_nec pulses = Ok (decode_fun pulses).
Proof.
  unfold Main.decode_nec, decode_fun.
  destruct (length pulses <? 66)%nat eqn:Hlen; [done|].
  apply Nat.ltb_ge in Hlen.
  rewrite header_ok_main, bind_ok by done.
  destruct (head_ok pulses); cbn [negb]; [|done].
  rewrite collect_spaces_main, bind_ok.
  2:{ eapply Forall_impl; [apply range_2_66_bound|]. intros i Hi. simpl in Hi. lia. }
  pose proof (classify_all (spaces_at pulses (range 2 66 2))) as Hc.
  destruct (bits_of (spaces_at pulses (range 2 66 2))) as [bs|].
  - destruct Hc as [Hm Hu]. by rewrite Hu, Hm, to_bytes_main, bind_ok.
  - by rewrite Hc.
Qed.

Lemma collect_bits_closed debug pulses (idx : list nat) (acc : list Z) :
  Forall (fun i => (i + 1 < length pulses)%nat) idx ->
  exists evs,
    Debug.collect_bits debug pulses idx acc
    = Ok ((fun bs => acc ++ bs) <$> bits_of (spaces_at pulses idx), evs).
Proof.
  intros H. revert acc. induction H as [|i idx Hi _ IH]; intros acc.
  - exists []. simpl. by rewrite app_nil_r.
  - cbn [Debug.collect_bits spaces_at map bits_of].
    destruct (length pulses <=? i + 1)%nat eqn:Hle.
    { apply Nat.leb_le in Hle. lia. }
    rewrite (getitem_lt pulses (i + 1)), bind_ok by done.
    unfold bit_of.
    destruct ((400 <? pulses !!! (i + 1)%nat) && (pulses !!! (i + 1)%nat <? 700)).
    { destruct (IH (acc ++ [0])) as [evs ->]. exists evs.
      fold (spaces_at pulses idx).
      destruct (bits_of (spaces_at pulses idx)); simpl; [|done].
      by rewrite <- app_assoc. }
    destruct ((1500 <? pulses !!! (i + 1)%nat) && (pulses !!! (i + 1)%nat <? 1800)).
    { destruct (IH (acc ++ [1])) as [evs ->]. exists evs.
      fold (spaces_at pulses idx).
      destruct (bits_of (spaces_at pulses idx)); simpl; [|done].
      by rewrite <- app_assoc. }
    eexists. reflexivity.
Qed.

Theorem decode_nec_debug_closed debug pulses :
  exists evs, Debug.decode_nec debug pulses = Ok (decode_fun pulses, evs).
Proof.
  unfold Debug.decode_nec, decode_fun.
  destruct (length pulses <? 66)%nat eqn:Hlen; [by eexists|].
  apply Nat.ltb_ge in Hlen.
  rewrite header_ok_debug, header_ok_main, bind_ok by done.
  destruct (head_ok pulses); cbn [negb].
  2:{ destruct debug; [|by eexists].
      rewrite (getitem_lt pulses 0), bind_ok by lia.
      rewrite (getitem_lt pulses 1), bind_ok by lia. by eexists. }
  destruct (collect_bits_closed debug pulses (range 2 66 2) []) as [evs ->].
  { eapply Forall_impl; [apply range_2_66_bound|]. intros i Hi. simpl in Hi. lia. }
  rewrite bind_ok.
  destruct (bits_of (spaces_at pulses (range 2 66 2))) as [bs|] eqn:Hb;
    cbn [fmap option_fmap option_map app]; [|by eexists].
  apply bits_of_length in Hb. unfold spaces_at in Hb.
  rewrite length_map in Hb. change (length (range 2 66 2)) with 32%nat in Hb.
  rewrite Hb. by eexists.
Qed.

(** *** The shift-and-or loop computes the most-significant-first value *)

Lemma lor_shift_bit a b : b = 0 \/ b = 1 -> Z.lor (Z.shiftl a 1) b = 2 * a + b.
Proof.
  intros Hb. rewrite Z.shiftl_mul_pow2 by lia. change (2 ^ 1) with 2.
  destruct Hb as [-> | ->].
  - rewrite Z.lor_0_r. lia.
  - rewrite <- Z.lxor_lor, <- Z.add_nocarry_lxor; try lia.
    all: change 1 with (Z.ones 1); rewrite Z.land_ones by lia;
      change (2 ^ 1) with 2; apply Z.mod_mul; lia.
Qed.

Lemma shift_in_msb (bs : list Z) : forall byte,
  Forall (fun b => b = 0 \/ b = 1) bs ->
  Debug.shift_in byte bs
  = byte * 2 ^ Z.of_nat (length bs) + Spec.msb_value bs.
Proof.
  induction bs as [|b r IH]; intros byte H; simpl.
  - lia.
  - inversion H as [|? ? Hb Hr]; subst.
    unfold Debug.shift_in in *. simpl. rewrite IH by done.
    rewrite lor_shift_bit by done.
    replace (Z.of_nat (S (length r))) with (Z.of_nat (length r) + 1) by lia.
    rewrite Z.pow_add_r by lia. lia.
Qed.

Lemma msb_value_bound (bs : list Z) :
  Forall (fun b => b = 0 \/ b = 1) bs ->
  0 <= Spec.msb_value bs < 2 ^ Z.of_nat (length bs).
Proof.
  induction 1 as [|b r Hb _ IH]; simpl; [lia|].
  replace (Z.of_nat (S (length r))) with (Z.of_nat (length r) + 1) by lia.
  rewrite Z.pow_add_r by lia.
  assert (0 < 2 ^ Z.of_nat (length r)) by (apply Z.pow_pos_nonneg; lia).
  destruct Hb as [-> | ->]; lia.
Qed.

Lemma to_bytes_pack (bs : list Z) :
  Forall (fun b => b = 0 \/ b = 1) bs ->
  Debug.to_bytes bs = Spec.pack_msb_first bs.
Proof.
  intros H. unfold Debug.to_bytes, Spec.pack_msb_first.
  change (range 0 32 8) with [0; 8; 16; 24]%nat. unfold slice. simpl map.
  rewrite !shift_in_msb by (apply Forall_take; try apply Forall_drop; done).
  rewrite drop_0. done.
Qed.

Lemma pack_bytes (bs : list Z) :
  Forall (fun b => b = 0 \/ b = 1) bs ->
  length (Spec.pack_msb_first bs) = 4%nat
  /\ Forall (fun byte => 0 <= byte <= 255) (Spec.pack_msb_first bs).
Proof.
  intros H. split; [done|].
  assert (forall l : list Z, Forall (fun b => b = 0 \/ b = 1) l ->
            0 <= Spec.msb_value (take 8 l) <= 255) as Hbyte.
  { intros l Hl.
    pose proof (msb_value_bound (take 8 l) (Forall_take _ _ _ Hl)) as Hv.
    assert (2 ^ Z.of_nat (length (take 8 l)) <= 2 ^ 8).
    { apply Z.pow_le_mono_r; [lia|]. rewrite length_take. lia. }
    change (2 ^ 8) with 256 in *. lia. }
  unfold Spec.pack_msb_first.
  repeat constructor; apply Hbyte; try apply Forall_drop; done.
Qed.

End DecoderFacts.

Section DecoderClaims.

Implicit Types (pulses : list Z) (i k : nat).

Lemma head_ok_true pulses p0 p1 :
  pulses !! 0%nat = Some p0 -> pulses !! 1%nat = Some p1 ->
  8500 < p0 < 9500 -> 4000 < p1 < 5000 -> head_ok pulses = true.
Proof.
  intros H0 H1 Hp0 Hp1. unfold head_ok.
  rewrite (list_lookup_total_correct _ _ _ H0), (list_lookup_total_correct _ _ _ H1).
  repeat (apply andb_true_intro; split); apply Z.ltb_lt; lia.
Qed.

Lemma bits_of_spaces pulses (idx : list nat) (bits : list Z) :
  Forall2 (fun i b => exists s, pulses !! (i + 1)%nat = Some s /\ bit_of s = Some b)
          idx bits ->
  bits_of (spaces_at pulses idx) = Some bits.
Proof.
  unfold spaces_at.
  induction 1 as [|i b idx bits (s & Hs & Hb) _ IH]; cbn [map bits_of]; [done|].
  by rewrite (list_lookup_total_correct _ _ _ Hs), Hb, IH.
Qed.

Lemma bits_of_None (ss : list Z) (s : Z) :
  s ∈ ss -> bit_of s = None -> bits_of ss = None.
Proof.
  intros Hin Hs. induction ss as [|s' r IH]; [by apply elem_of_nil in Hin|].
  cbn [bits_of]. apply elem_of_cons in Hin as [<- | Hin].
  - by rewrite Hs.
  - rewrite (IH Hin). by destruct (bit_of s').
Qed.

Lemma range_2_66_lookup k :
  (k < 32)%nat -> range 2 66 2 !! k = Some (2 + 2 * k)%nat.
Proof.
  intros Hk. rewrite range_2_66_positions.
  change (map ?f ?l) with (f <$> l).
  by rewrite list_lookup_fmap, lookup_seq_lt.
Qed.

Lemma bit_of_zero s : Spec.is_zero_space s -> bit_of s = Some 0.
Proof.
  unfold Spec.is_zero_space, bit_of. intros H.
  destruct (Z.ltb_spec 400 s), (Z.ltb_spec s 700); simpl; try lia. done.
Qed.

Lemma bit_of_one s : Spec.is_one_space s -> bit_of s = Some 1.
Proof.
  unfold Spec.is_one_space, bit_of. intros H.
  destruct (Z.ltb_spec 400 s), (Z.ltb_spec s 700),
    (Z.ltb_spec 1500 s), (Z.ltb_spec s 1800); simpl; try lia; done.
Qed.

Lemma decode_fun_take pulses :
  (66 <= length pulses)%nat -> decode_fun pulses = decode_fun (take 66 pulses).
Proof.
  intros H. unfold decode_fun.
  rewrite length_take_le by done.
  replace (length pulses <? 66)%nat with false by (symmetry; by apply Nat.ltb_ge).
  change (66 <? 66)%nat with false. cbv iota.
  assert (head_ok pulses = head_ok (take 66 pulses)) as ->.
  { unfold head_ok. by rewrite !lookup_total_take_lt by lia. }
  assert (spaces_at pulses (range 2 66 2)
          = spaces_at (take 66 pulses) (range 2 66 2)) as ->; [|done].
  unfold spaces_at. apply map_ext_in. intros i Hi.
  pose proof range_2_66_bound as Hb.
  rewrite Forall_forall in Hb. apply list_elem_of_In, Hb in Hi.
  by rewrite lookup_total_take_lt.
Qed.

Lemma decode_fun_code pulses code :
  decode_fun pulses = Some code ->
  length code = 4%nat /\ Forall (fun byte => 0 <= byte <= 255) code.
Proof.
  unfold decode_fun. destruct (length pulses <? 66)%nat; [done|].
  destruct (head_ok pulses); [|done].
  destruct (bits_of _) as [bs|] eqn:Hb; [|done]. intros [= <-].
  apply bits_of_01 in Hb. rewrite to_bytes_pack by done. by apply pack_bytes.
Qed.

(** C1: a sequence of at least 66 pulses whose header lies in the two
    header windows and whose 32 spaces at positions 3, 5, ..., 65 each
    lie in the zero window or in the one window decodes, in both
    programs, to the four bytes that pack the 32 classified bits most
    significant bit first;
    in particular the frame with header (9000, 4500) and the bit
    pattern 01100001 11010110 01001000 10110111 decodes to
    (0x61, 0xD6, 0x48, 0xB7). *)
Theorem decode_valid_frame pulses (bits : list Z) (p0 p1 : Z) :
  (66 <= length pulses)%nat ->
  pulses !! 0%nat = Some p0 -> 8500 < p0 < 9500 ->
  pulses !! 1%nat = Some p1 -> 4000 < p1 < 5000 ->
  length bits = 32%nat ->
  (forall k b, bits !! k = Some b ->
     exists s, pulses !! (3 + 2 * k)%nat = Some s
               /\ ((Spec.is_zero_space s /\ b = 0)
                   \/ (Spec.is_one_space s /\ b = 1))) ->
  Main.decode_nec pulses = Ok (Some (Spec.pack_msb_first bits))
  /\ (forall debug, exists evs,
        Debug.decode_nec debug pulses
        = Ok (Some (Spec.pack_msb_first bits), evs))
  /\ (forall mark,
        Main.decode_nec (Spec.nec_frame mark Spec.example_bits)
        = Ok (Some [0x61; 0xD6; 0x48; 0xB7])).
Proof.
  intros Hlen H0 Hp0 H1 Hp1 Hbits Hsp.
  assert (decode_fun pulses = Some (Spec.pack_msb_first bits)) as Hf.
  { unfold decode_fun.
    replace (length pulses <? 66)%nat with false by (symmetry; by apply Nat.ltb_ge).
    rewrite (head_ok_true pulses p0 p1) by done.
    assert (bits_of (spaces_at pulses (range 2 66 2)) = Some bits) as Hb.
    { apply bits_of_spaces, Forall2_same_length_lookup. split; [done|].
      intros k i b Hi Hk.
      assert (k < 32)%nat as Hk32 by (apply lookup_lt_Some in Hk; lia).
      rewrite range_2_66_lookup in Hi by done. injection Hi as <-.
      destruct (Hsp k b Hk) as (s & Hs & Hw). exists s.
      split; [rewrite <- Hs; f_equal; lia|].
      destruct Hw as [[Hz ->] | [Ho ->]]; [by apply bit_of_zero | by apply bit_of_one]. }
    rewrite Hb. simpl. f_equal. apply to_bytes_pack. by eapply bits_of_01. }
  split; [|split; [|reflexivity]].
  - by rewrite decode_nec_main_closed, Hf.
  - intros debug. destruct (decode_nec_debug_closed debug pulses) as [evs ->].
    exists evs. by rewrite Hf.
Qed.

(** C2: a sequence of fewer than 66 pulses decodes to none, whatever
    its entries, in both programs. *)
Theorem decode_short_none pulses :
  (length pulses < 66)%nat ->
  Main.decode_nec pulses = Ok None
  /\ forall debug,
       Debug.decode_nec debug pulses
       = Ok (None, Debug.dbg debug [EvFewPulses (length pulses)]).
Proof.
  intros H. apply Nat.ltb_lt in H.
  unfold Main.decode_nec, Debug.decode_nec. by rewrite H.
Qed.

(** C3: the windows are open intervals.  In a sequence of at least 66
    pulses a header space of exactly 4000 or 5000, or a data space of
    exactly 700 or 1500 at one of the positions 3, 5, ..., 65, makes
    both decoders return none. *)
Theorem decode_boundary_none pulses :
  (66 <= length pulses)%nat ->
  (pulses !! 1%nat = Some 4000 \/ pulses !! 1%nat = Some 5000
   \/ exists k, (k < 32)%nat
                /\ (pulses !! (3 + 2 * k)%nat = Some 700
                    \/ pulses !! (3 + 2 * k)%nat = Some 1500)) ->
  Main.decode_nec pulses = Ok None
  /\ forall debug, exists evs, Debug.decode_nec debug pulses = Ok (None, evs).
Proof.
  intros Hlen H.
  assert (decode_fun pulses = None) as Hn.
  { unfold decode_fun. destruct (length pulses <? 66)%nat; [done|].
    destruct H as [H | [H | (k & Hk & H)]].
    - unfold head_ok. rewrite (list_lookup_total_correct _ _ _ H).
      by rewrite andb_false_r.
    - unfold head_ok. rewrite (list_lookup_total_correct _ _ _ H).
      by rewrite !andb_false_r.
    - destruct (head_ok pulses); [|done].
      assert (exists s, pulses !! (3 + 2 * k)%nat = Some s /\ bit_of s = None)
        as (s & Hs & Hb) by (destruct H as [H | H]; eexists; split; done).
      rewrite (bits_of_None _ s); [done| |done].
      unfold spaces_at. apply list_elem_of_In, in_map_iff.
      exists (2 + 2 * k)%nat. split.
      + replace (2 + 2 * k + 1)%nat with (3 + 2 * k)%nat by lia.
        by apply list_lookup_total_correct.
      + apply list_elem_of_In, list_elem_of_lookup. exists k.
        by apply range_2_66_lookup. }
  split.
  - by rewrite decode_nec_main_closed, Hn.
  - intros debug. destruct (decode_nec_debug_closed debug pulses) as [evs ->].
    exists evs. by rewrite Hn.
Qed.

(** C9: the two decoders return the same result on every list of
    pulses, whatever the debug flag: the [break], the [return] inside
    the loop and the count of bits of the debug version change nothing. *)
Theorem decode_nec_debug_same (debug : bool) pulses :
  rmap fst (Debug.decode_nec debug pulses) = Main.decode_nec pulses.
Proof.
  destruct (decode_nec_debug_closed debug pulses) as [evs ->].
  by rewrite decode_nec_main_closed.
Qed.

(** C10: on sequences of at least 66 pulses the result depends on the
    first 66 entries only, in both programs, and a returned code is
    four bytes, each between 0 and 255. *)
Theorem decode_first_66 pulses pulses' :
  (66 <= length pulses)%nat -> (66 <= length pulses')%nat ->
  take 66 pulses = take 66 pulses' ->
  Main.decode_nec pulses = Main.decode_nec pulses'
  /\ (forall debug,
        rmap fst (Debug.decode_nec debug pulses)
        = rmap fst (Debug.decode_nec debug pulses'))
  /\ (forall code,
        Main.decode_nec pulses = Ok (Some code) ->
        length code = 4%nat /\ Forall (fun byte => 0 <= byte <= 255) code).
Proof.
  intros H H' Heq.
  assert (decode_fun pulses = decode_fun pulses') as Hf.
  { by rewrite (decode_fun_take pulses), (decode_fun_take pulses'), Heq. }
  split; [|split].
  - by rewrite !decode_nec_main_closed, Hf.
  - intros debug.
    destruct (decode_nec_debug_closed debug pulses) as [evs ->].
    destruct (decode_nec_debug_closed debug pulses') as [evs' ->].
    simpl. by rewrite Hf.
  - intros code. rewrite decode_nec_main_closed. intros [= Hc].
    by apply (decode_fun_code pulses).
Qed.

End DecoderClaims.

(** * The code table and the learning controller *)

Section TableClaims.

Implicit Types (d : Debug.decoder) (code key : list Z) (name : string).

Lemma lookup_set_code d key name key' :
  Debug.lookup (Debug.set_code d key name) key'
  = if decide (key = key') then Some name else Debug.lookup d key'.
Proof. unfold Debug.lookup, Debug.set_code. simpl. apply lookup_insert. Qed.

(** C6, as stated, fails: after binding a fresh code to ["UP"] in the
    table that [__init__] builds, the code of POWER differs from the
    bound code and is still found. *)
Lemma bind_other_code_found :
  ~ (forall d code code',
       code' <> code ->
       Debug.lookup (Debug.set_code d code "UP") code' = None).
Proof.
  intros H.
  specialize (H Debug.init [0x11; 0x22; 0x33; 0x44] [0x61; 0xD6; 0x48; 0xB7]).
  rewrite lookup_set_code in H. vm_compute in H.
  discriminate H. intros [=].
Qed.

(** C6, amended: after [bind(code, "UP")] a lookup of that code returns
    ["UP"], and a lookup of any other code returns what it returned
    before the bind, so none exactly when that code was not bound. *)
Theorem bind_lookup d code :
  Debug.lookup (Debug.set_code d code "UP") code = Some "UP"%string
  /\ forall code',
       code' <> code ->
       Debug.lookup (Debug.set_code d code "UP") code' = Debug.lookup d code'.
Proof.
  split.
  - rewrite lookup_set_code. by rewrite decide_True.
  - intros code' Hne. rewrite lookup_set_code. by rewrite decide_False.
Qed.

(** C7: arming for a name that is not a key of [outputs] fails:
    [learn_button] returns [False] at once, having read neither the
    line nor a clock, and leaves every field of the decoder as it was;
    arming for a key of [outputs] sets [learning_mode] and the target
    and changes no binding. *)
Theorem arm_checks_name d name w :
  (Debug.outputs d !! name = None ->
     Debug.arm d name w = (None, print [EvUnknownButton name] w)
     /\ forall fuel,
          Debug.learn_button fuel d name w
          = Some (Ok false, d, print [EvUnknownButton name] w))
  /\ (is_Some (Debug.outputs d !! name) ->
        exists d1 start_time w1,
          Debug.arm d name w = (Some (d1, start_time), w1)
          /\ Debug.learning_mode d1 = true
          /\ Debug.learning_button d1 = name
          /\ Debug.button_codes d1 = Debug.button_codes d
          /\ console w1 = console w ++ [EvLearnStart name]).
Proof.
  split.
  - intros H. unfold Debug.learn_button, Debug.arm. by rewrite H.
  - intros [pin H]. unfold Debug.arm. rewrite H. by repeat eexists.
Qed.

End TableClaims.

(** ** More fuel changes no result *)

Section Fuel.

Lemma wait_low_mono f f' timeout_ms start_time w r :
  wait_low f timeout_ms start_time w = Some r -> (f <= f')%nat ->
  wait_low f' timeout_ms start_time w = Some r.
Proof.
  revert f' w. induction f as [|f IH]; intros f' w H Hle; [done|].
  destruct f' as [|f']; [lia|]. cbn [wait_low] in *.
  destruct (pin_value w) as [v w1]. destruct v; [|done].
  destruct (ticks_ms w1) as [now w2].
  destruct (ticks_diff now start_time >? timeout_ms); [done|].
  apply IH; [done|lia].
Qed.

Lemma wait_change_mono f f' level t0 w r :
  wait_change f level t0 w = Some r -> (f <= f')%nat ->
  wait_change f' level t0 w = Some r.
Proof.
  revert f' w. induction f as [|f IH]; intros f' w H Hle; [done|].
  destruct f' as [|f']; [lia|]. cbn [wait_change] in *.
  destruct (pin_value w) as [v w1]. destruct (Bool.eqb v level); [|done].
  destruct (ticks_us w1) as [now w2].
  destruct (ticks_diff now t0 >? 10000); [done|].
  apply IH; [done|lia].
Qed.

Lemma capture_mono f f' n pulses w r :
  capture f n pulses w = Some r -> (f <= f')%nat ->
  capture f' n pulses w = Some r.
Proof.
  intros H Hle. revert pulses w H.
  induction n as [|n IH]; intros pulses w H; [done|].
  cbn [capture] in *.
  destruct (ticks_us w) as [t0 w1]. destruct (pin_value w1) as [level w2].
  destruct (wait_change f level t0 w2) as [[b w3]|] eqn:Hw; [|done].
  rewrite (wait_change_mono _ _ _ _ _ _ Hw Hle).
  destruct b; [|done]. destruct (ticks_us w3) as [now w4]. by apply IH.
Qed.

Lemma read_pulses_mono f f' timeout_ms w r :
  read_pulses f timeout_ms w = Some r -> (f <= f')%nat ->
  read_pulses f' timeout_ms w = Some r.
Proof.
  unfold read_pulses. intros H Hle. destruct (ticks_ms w) as [start_time w1].
  destruct (wait_low f timeout_ms start_time w1) as [[b w2]|] eqn:Hw; [|done].
  rewrite (wait_low_mono _ _ _ _ _ _ Hw Hle).
  destruct b; [|done]. by eapply capture_mono.
Qed.

Lemma process_ir_signal_mono f f' d w r :
  Debug.process_ir_signal f d w = Some r -> (f <= f')%nat ->
  Debug.process_ir_signal f' d w = Some r.
Proof.
  unfold Debug.process_ir_signal. intros H Hle.
  destruct (read_pulses f 100 w) as [[pulses w1]|] eqn:Hr; [|done].
  by rewrite (read_pulses_mono _ _ _ _ _ Hr Hle).
Qed.

Lemma learn_loop_mono k k' f f' start_time d w r :
  Debug.learn_loop k f start_time d w = Some r ->
  (k <= k')%nat -> (f <= f')%nat ->
  Debug.learn_loop k' f' start_time d w = Some r.
Proof.
  intros H Hk Hf. revert k' d w H Hk.
  induction k as [|k IH]; intros k' d w H Hk; [done|].
  destruct k' as [|k']; [lia|]. cbn [Debug.learn_loop] in *.
  destruct (Debug.learning_mode d); [|done].
  destruct (ticks_ms w) as [now w1].
  destruct (ticks_diff now start_time <? 10000); [|done].
  destruct (Debug.process_ir_signal f d w1) as [[[r1 d2] w2]|] eqn:Hp; [|done].
  rewrite (process_ir_signal_mono _ _ _ _ _ Hp Hf).
  destruct r1; [|done]. apply IH; [done|lia].
Qed.

End Fuel.

(** ** One cycle and the loop of [learn_button] *)

Section Learning.

Implicit Types (d : Debug.decoder) (code key : list Z) (name : string).

Lemma console_print evs w : console (print evs w) = console w ++ evs.
Proof. reflexivity. Qed.

Lemma decode_fun_nil : decode_fun [] = None.
Proof. reflexivity. Qed.

(** A cycle in learning mode whose capture decodes binds the code. *)
Lemma process_learns fuel d w pulses w1 code :
  Debug.learning_mode d = true ->
  read_pulses fuel 100 w = Some (pulses, w1) ->
  decode_fun pulses = Some code ->
  exists w',
    Debug.process_ir_signal fuel d w
    = Some (Ok (Some (Debug.learning_button d)),
            Debug.set_learning_mode
              (Debug.set_code d code (Debug.learning_button d)) false,
            w')
    /\ last (console w') = Some (EvSaved code (Debug.learning_button d)).
Proof.
  intros Hmode Hread Hdec. unfold Debug.process_ir_signal. rewrite Hread.
  destruct pulses as [|p pulses]; [by rewrite decode_fun_nil in Hdec|].
  destruct (decode_nec_debug_closed (Debug.debug_mode d) (p :: pulses))
    as [evs ->].
  rewrite Hdec.
  destruct (decode_fun_code _ _ Hdec) as [Hlen _].
  destruct code as [|b c]; [done|]. rewrite Hmode.
  eexists. split; [reflexivity|].
  rewrite console_print. apply last_snoc.
Qed.

Lemma guard_true now start_time :
  ticks_diff now start_time < 10000 ->
  (ticks_diff now start_time <? 10000) = true.
Proof. apply Z.ltb_lt. Qed.

Lemma guard_false now start_time :
  10000 <= ticks_diff now start_time ->
  (ticks_diff now start_time <? 10000) = false.
Proof. apply Z.ltb_ge. Qed.

Lemma hears_loop fuel start_time d w code :
  hears fuel start_time d w code ->
  Debug.learning_mode d = true ->
  exists k w',
    Debug.learn_loop k fuel start_time d w
    = Some (Ok tt,
            Debug.set_learning_mode
              (Debug.set_code d code (Debug.learning_button d)) false,
            w')
    /\ last (console w') = Some (EvSaved code (Debug.learning_button d)).
Proof.
  induction 1 as [w pulses w1 code Hg Hread Hdec | w w1 code Hg Hp _ IH];
    intros Hmode.
  - destruct (process_learns fuel d _ _ _ _ Hmode Hread Hdec) as (w' & Hp & Hl).
    exists 2%nat, (sleep_ms 10 w'). split; [|done].
    cbn [Debug.learn_loop]. rewrite Hmode.
    destruct (ticks_ms w) as [now w0]. cbn [fst snd] in *.
    rewrite (guard_true _ _ Hg), Hp. reflexivity.
  - destruct (IH Hmode) as (k & w' & Hk & Hl).
    exists (S k), w'. split; [|done].
    cbn [Debug.learn_loop]. rewrite Hmode.
    destruct (ticks_ms w) as [now w0]. cbn [fst snd] in *.
    by rewrite (guard_true _ _ Hg), Hp.
Qed.

Lemma arm_inv d name w d1 start_time w1 :
  Debug.arm d name w = (Some (d1, start_time), w1) ->
  is_Some (Debug.outputs d !! name)
  /\ d1 = Debug.set_learning d true name.
Proof.
  unfold Debug.arm. destruct (Debug.outputs d !! name); [|done].
  destruct (ticks_ms _). intros [= <- <- <-]. eauto.
Qed.

(** C4: when learning is armed for a key of [outputs] and a cycle that
    starts before the deadline captures pulses that decode to [code],
    [learn_button] returns [True], has bound [code] to the target and
    printed it, has left learning mode, and has removed no binding: a
    code bound to the same name before is still bound to it. *)
Theorem learn_binds fuel d name w d1 start_time w1 code :
  Debug.arm d name w = (Some (d1, start_time), w1) ->
  hears fuel start_time d1 w1 code ->
  exists fuel0 d' w',
    (forall fuel', (fuel0 <= fuel')%nat ->
       Debug.learn_button fuel' d name w = Some (Ok true, d', w'))
    /\ Debug.button_codes d' = <[code := name]> (Debug.button_codes d)
    /\ Debug.lookup d' code = Some name
    /\ Debug.learning_mode d' = false
    /\ last (console w') = Some (EvSaved code name)
    /\ forall code0,
         Debug.lookup d code0 = Some name -> Debug.lookup d' code0 = Some name.
Proof.
  intros Harm Hh. destruct (arm_inv _ _ _ _ _ _ Harm) as [_ ->].
  destruct (hears_loop _ _ _ _ _ Hh eq_refl) as (k & w' & Hk & Hl).
  cbn [Debug.set_learning Debug.learning_button] in Hk, Hl.
  eexists (Nat.max k fuel), _, w'. split; [|split; [|split; [|split; [|split]]]].
  - intros fuel' Hf. unfold Debug.learn_button. rewrite Harm.
    rewrite (learn_loop_mono _ fuel' _ fuel' _ _ _ _ Hk) by lia. reflexivity.
  - reflexivity.
  - unfold Debug.lookup. simpl. apply lookup_insert_eq.
  - reflexivity.
  - exact Hl.
  - intros code0. unfold Debug.lookup. simpl. intros H0.
    destruct (decide (code = code0)) as [<- | Hne].
    + apply lookup_insert_eq.
    + by rewrite lookup_insert_ne.
Qed.

Lemma expires_loop fuel start_time d w w' :
  expires fuel start_time d w w' ->
  Debug.learning_mode d = true ->
  exists k, Debug.learn_loop k fuel start_time d w = Some (Ok tt, d, w').
Proof.
  induction 1 as [w Hg | w w1 w' Hg Hp _ IH]; intros Hmode.
  - exists 1%nat. cbn [Debug.learn_loop]. rewrite Hmode.
    destruct (ticks_ms w) as [now w0]. cbn [fst snd] in *.
    by rewrite (guard_false _ _ Hg).
  - destruct (IH Hmode) as [k Hk]. exists (S k).
    cbn [Debug.learn_loop]. rewrite Hmode.
    destruct (ticks_ms w) as [now w0]. cbn [fst snd] in *.
    by rewrite (guard_true _ _ Hg), Hp.
Qed.

End Learning.

(** * Capture: termination and bounds *)

Section Ticks.

Lemma ticks_period_half : TICKS_PERIOD = 2 * TICKS_HALF.
Proof. reflexivity. Qed.

(** On readings less than half a period apart [ticks_diff] is the
    difference of the times, wrapped or not. *)
Lemma ticks_diff_exact (t1 t2 : Z) :
  - TICKS_HALF <= t1 - t2 < TICKS_HALF ->
  ticks_diff (t1 mod TICKS_PERIOD) (t2 mod TICKS_PERIOD) = t1 - t2.
Proof.
  intros H. unfold ticks_diff.
  assert (TICKS_PERIOD <> 0) as Hp by done.
  rewrite (Z.mod_eq t1 TICKS_PERIOD), (Z.mod_eq t2 TICKS_PERIOD) by done.
  replace (t1 - TICKS_PERIOD * (t1 / TICKS_PERIOD)
           - (t2 - TICKS_PERIOD * (t2 / TICKS_PERIOD)) + TICKS_HALF)
    with (t1 - t2 + TICKS_HALF
          + (t2 / TICKS_PERIOD - t1 / TICKS_PERIOD) * TICKS_PERIOD) by ring.
  rewrite Z_mod_plus_full, Z.mod_small; [lia|].
  rewrite ticks_period_half. lia.
Qed.

Lemma advancing_le step clock n m :
  advancing step clock -> (n <= m)%nat -> clock n <= clock m.
Proof.
  intros H. induction 1 as [|m _ IH]; [lia|].
  pose proof (adv_mono _ _ H m). lia.
Qed.

Lemma advancing_step_nonneg step clock : advancing step clock -> 0 <= step.
Proof.
  intros H. pose proof (adv_mono _ _ H 0%nat). pose proof (adv_step _ _ H 0%nat).
  lia.
Qed.

End Ticks.

Section Capture.

Variables (pin : nat -> bool) (ms us : nat -> Z) (step : Z).
Hypothesis Hms : advancing step ms.
Hypothesis Hus : advancing step us.

#[local] Abbreviation W pp mp up c := (World pin pp ms mp us up c).

(** The wait for a low line ends: either the line is read low, or a
    reading of the millisecond counter is more than [timeout_ms] after
    the one at position [s]. *)
Lemma wait_low_terminates timeout_ms (s : nat) up c :
  0 <= timeout_ms -> timeout_ms + step < TICKS_HALF ->
  forall pp mp,
    (s <= mp)%nat -> ms mp - ms s <= timeout_ms + step ->
    exists fuel b pp' mp',
      wait_low fuel timeout_ms (ms s mod TICKS_PERIOD) (W pp mp up c)
      = Some (b, W pp' mp' up c)
      /\ (pp < pp')%nat /\ pin (pp' - 1)%nat = negb b
      /\ (mp <= mp')%nat /\ ms mp' - ms s <= timeout_ms + 2 * step.
Proof.
  intros Ht Hhalf pp mp Hs Hnear.
  pose proof (advancing_step_nonneg _ _ Hms) as Hstep.
  destruct (adv_far _ _ Hms mp (ms s + timeout_ms + 1)) as (M & HM & Hfar).
  remember (M - mp)%nat as n eqn:Hn.
  revert pp mp Hs Hnear HM Hn.
  induction n as [|n IH]; intros pp mp Hs Hnear HM Hn.
  - assert (mp = M) as -> by lia.
    exists 1%nat. cbn [wait_low pin_value ticks_ms pin_trace pin_pos ms_clock
                        ms_pos us_clock us_pos console].
    destruct (pin pp) eqn:Hpin.
    + pose proof (advancing_le _ _ _ _ Hms Hs).
      rewrite ticks_diff_exact by lia.
      destruct (Z.gtb_spec (ms M - ms s) timeout_ms) as [_|]; [|lia].
      exists false, (S pp), (S M). split; [done|].
      replace (S pp - 1)%nat with pp by lia.
      pose proof (adv_step _ _ Hms M). repeat split; try done; lia.
    + exists true, (S pp), M. split; [done|].
      replace (S pp - 1)%nat with pp by lia.
      repeat split; try done; lia.
  - destruct (pin pp) eqn:Hpin.
    + pose proof (advancing_le _ _ _ _ Hms Hs).
      pose proof (adv_step _ _ Hms mp).
      pose proof (adv_mono _ _ Hms mp).
      destruct (Z.gtb_spec (ms mp - ms s) timeout_ms) as [Hgt|Hle].
      * exists 1%nat, false, (S pp), (S mp).
        cbn [wait_low pin_value ticks_ms pin_trace pin_pos ms_clock
                      ms_pos us_clock us_pos console].
        rewrite Hpin, ticks_diff_exact by lia.
        destruct (Z.gtb_spec (ms mp - ms s) timeout_ms) as [_|]; [|lia].
        replace (S pp - 1)%nat with pp by lia.
        repeat split; try done; lia.
      * destruct (IH (S pp) (S mp)) as (fuel & b & pp' & mp' & Hw & Hpp & Hb & Hmp & Hpost);
          try lia.
        exists (S fuel), b, pp', mp'.
        cbn [wait_low pin_value ticks_ms pin_trace pin_pos ms_clock
                      ms_pos us_clock us_pos console].
        rewrite Hpin, ticks_diff_exact by lia.
        destruct (Z.gtb_spec (ms mp - ms s) timeout_ms) as [|_]; [lia|].
        repeat split; try done; lia.
    + exists 1%nat, true, (S pp), mp.
      cbn [wait_low pin_value ticks_ms pin_trace pin_pos ms_clock
                    ms_pos us_clock us_pos console].
      rewrite Hpin. replace (S pp - 1)%nat with pp by lia.
      pose proof (advancing_le _ _ _ _ Hms Hs).
      repeat split; try done; lia.
Qed.

Lemma wait_change_terminates (level : bool) (s : nat) mp c :
  10000 + step < TICKS_HALF ->
  forall pp up,
    (s <= up)%nat -> us up - us s <= 10000 + step ->
    exists fuel b pp' up',
      wait_change fuel level (us s mod TICKS_PERIOD) (W pp mp up c)
      = Some (b, W pp' mp up' c)
      /\ (pp < pp')%nat /\ (up <= up')%nat.
Proof.
  intros Hhalf pp up Hs Hnear.
  pose proof (advancing_step_nonneg _ _ Hus) as Hstep.
  destruct (adv_far _ _ Hus up (us s + 10000 + 1)) as (M & HM & Hfar).
  remember (M - up)%nat as n eqn:Hn.
  revert pp up Hs Hnear HM Hn.
  induction n as [|n IH]; intros pp up Hs Hnear HM Hn;
    pose proof (advancing_le _ _ _ _ Hus Hs);
    pose proof (adv_step _ _ Hus up);
    pose proof (adv_mono _ _ Hus up);
    destruct (Bool.eqb (pin pp) level) eqn:Hpin.
  - assert (up = M) as -> by lia.
    exists 1%nat, false, (S pp), (S M).
    cbn [wait_change pin_value ticks_us pin_trace pin_pos ms_clock
                     ms_pos us_clock us_pos console].
    rewrite Hpin, ticks_diff_exact by lia.
    destruct (Z.gtb_spec (us M - us s) 10000) as [_|]; [|lia].
    repeat split; try done; lia.
  - exists 1%nat, true, (S pp), up.
    cbn [wait_change pin_value ticks_us pin_trace pin_pos ms_clock
                     ms_pos us_clock us_pos console].
    rewrite Hpin. repeat split; try done; lia.
  - destruct (Z.gtb_spec (us up - us s) 10000) as [Hgt|Hle].
    + exists 1%nat, false, (S pp), (S up).
      cbn [wait_change pin_value ticks_us pin_trace pin_pos ms_clock
                       ms_pos us_clock us_pos console].
      rewrite Hpin, ticks_diff_exact by lia.
      destruct (Z.gtb_spec (us up - us s) 10000) as [_|]; [|lia].
      repeat split; try done; lia.
    + destruct (IH (S pp) (S up)) as (fuel & b & pp' & up' & Hw & Hpp & Hup);
        try lia.
      exists (S fuel), b, pp', up'.
      cbn [wait_change pin_value ticks_us pin_trace pin_pos ms_clock
                       ms_pos us_clock us_pos console].
      rewrite Hpin, ticks_diff_exact by lia.
      destruct (Z.gtb_spec (us up - us s) 10000) as [|_]; [lia|].
      repeat split; try done; lia.
  - exists 1%nat, true, (S pp), up.
    cbn [wait_change pin_value ticks_us pin_trace pin_pos ms_clock
                     ms_pos us_clock us_pos console].
    rewrite Hpin. repeat split; try done; lia.
Qed.

(** The [for] loop ends, having appended at most [n] durations. *)
Lemma capture_terminates mp c :
  10000 + step < TICKS_HALF ->
  forall n pulses pp up,
    exists fuel more pp' up',
      capture fuel n pulses (W pp mp up c)
      = Some (pulses ++ more, W pp' mp up' c)
      /\ (length more <= n)%nat /\ (pp <= pp')%nat.
Proof.
  intros Hhalf. pose proof (advancing_step_nonneg _ _ Hus) as Hstep.
  induction n as [|n IH]; intros pulses pp up.
  - exists 0%nat, [], pp, up. rewrite app_nil_r. repeat split; done.
  - pose proof (adv_step _ _ Hus up). pose proof (adv_mono _ _ Hus up).
    destruct (wait_change_terminates (pin pp) up mp c Hhalf (S pp) (S up))
      as (fuel1 & b & pp1 & up1 & Hw & Hpp1 & Hup1); try lia.
    destruct b.
    + destruct (IH (pulses ++ [ticks_diff (us up1 mod TICKS_PERIOD)
                                          (us up mod TICKS_PERIOD)])
                   pp1 (S up1))
        as (fuel2 & more & pp2 & up2 & Hc & Hlen & Hpp2).
      exists (Nat.max fuel1 fuel2),
             (ticks_diff (us up1 mod TICKS_PERIOD) (us up mod TICKS_PERIOD) :: more),
             pp2, up2.
      cbn [capture pin_value ticks_us pin_trace pin_pos ms_clock
                   ms_pos us_clock us_pos console].
      rewrite (wait_change_mono _ (Nat.max fuel1 fuel2) _ _ _ _ Hw) by lia.
      cbn [ticks_us pin_trace pin_pos ms_clock ms_pos us_clock us_pos console].
      rewrite (capture_mono _ (Nat.max fuel1 fuel2) _ _ _ _ Hc) by lia.
      rewrite <- app_assoc. simpl. repeat split; try done; lia.
    + exists fuel1, [], pp1, up1.
      cbn [capture pin_value ticks_us pin_trace pin_pos ms_clock
                   ms_pos us_clock us_pos console].
      rewrite Hw, app_nil_r. simpl. repeat split; try done; lia.
Qed.

(** [read_pulses] returns, with at most 100 pulses, and with none when
    every poll it made read the line high.  It reads the millisecond
    counter at least once, and its last reading is at most
    [timeout_ms + 2 * step] after its first. *)
Lemma read_pulses_terminates timeout_ms c :
  0 <= timeout_ms -> timeout_ms + step < TICKS_HALF ->
  10000 + step < TICKS_HALF ->
  forall pp mp up,
    exists fuel pulses pp' mp' up',
      read_pulses fuel timeout_ms (W pp mp up c)
      = Some (pulses, W pp' mp' up' c)
      /\ (length pulses <= 100)%nat
      /\ (pp < pp')%nat /\ (mp < mp')%nat
      /\ ms mp' - ms mp <= timeout_ms + 2 * step
      /\ ((forall n, (pp <= n < pp')%nat -> pin n = true) -> pulses = []).
Proof.
  intros Ht Hhalf Hhalf' pp mp up.
  pose proof (advancing_step_nonneg _ _ Hms) as Hstep.
  pose proof (adv_step _ _ Hms mp). pose proof (adv_mono _ _ Hms mp).
  destruct (wait_low_terminates timeout_ms mp up c Ht Hhalf pp (S mp))
    as (fuel1 & b & pp1 & mp1 & Hw & Hpp1 & Hb & Hmp1 & Hpost); try lia.
  destruct b.
  - destruct (capture_terminates mp1 c Hhalf' 100 [] pp1 up)
      as (fuel2 & more & pp2 & up2 & Hc & Hlen & Hpp2).
    exists (Nat.max fuel1 fuel2), more, pp2, mp1, up2.
    unfold read_pulses.
    cbn [ticks_ms pin_trace pin_pos ms_clock ms_pos us_clock us_pos console].
    rewrite (wait_low_mono _ (Nat.max fuel1 fuel2) _ _ _ _ Hw) by lia.
    rewrite (capture_mono _ (Nat.max fuel1 fuel2) _ _ _ _ Hc) by lia.
    simpl app. repeat split; try done; try lia.
    intros Hhigh. rewrite Hhigh in Hb by lia. done.
  - exists fuel1, [], pp1, mp1, up.
    unfold read_pulses.
    cbn [ticks_ms pin_trace pin_pos ms_clock ms_pos us_clock us_pos console].
    rewrite Hw. simpl. repeat split; try done; lia.
Qed.

End Capture.

Section CaptureBounds.

Lemma capture_appends fuel n pulses w pulses' w' :
  capture fuel n pulses w = Some (pulses', w') ->
  exists more, pulses' = pulses ++ more /\ (length more <= n)%nat.
Proof.
  revert pulses w. induction n as [|n IH]; intros pulses w; cbn [capture].
  - intros [= <- <-]. exists []. by rewrite app_nil_r.
  - destruct (ticks_us w) as [t0 w1]. destruct (pin_value w1) as [level w2].
    destruct (wait_change fuel level t0 w2) as [[[] w3]|]; [| |done].
    + destruct (ticks_us w3) as [now w4]. intros H.
      destruct (IH _ _ H) as (more & -> & Hlen).
      exists (ticks_diff now t0 :: more). rewrite <- app_assoc.
      split; [done|]. simpl. lia.
    + intros [= <- <-]. exists []. rewrite app_nil_r. split; [done|]. simpl. lia.
Qed.

Lemma read_pulses_length fuel timeout_ms w pulses w' :
  read_pulses fuel timeout_ms w = Some (pulses, w') -> (length pulses <= 100)%nat.
Proof.
  unfold read_pulses. destruct (ticks_ms w) as [start_time w1].
  destruct (wait_low fuel timeout_ms start_time w1) as [[[] w2]|]; [| |done].
  - intros H. by destruct (capture_appends _ _ _ _ _ _ H) as (more & -> & Hlen).
  - intros [= <- <-]. simpl. lia.
Qed.

(** C8: whatever the line does, with clocks that advance [read_pulses]
    returns, and what it returns has between 0 and 100 entries: it is
    empty when every poll of the line read high, a per-pulse timeout
    returns the pulses collected so far, and the loop appends at most
    one duration per iteration, so at most 100. *)
Theorem read_pulses_bounded (step timeout_ms : Z) (w : world) :
  advancing step (ms_clock w) -> advancing step (us_clock w) ->
  0 <= timeout_ms -> timeout_ms + step < TICKS_HALF ->
  10000 + step < TICKS_HALF ->
  (exists fuel pulses w',
     read_pulses fuel timeout_ms w = Some (pulses, w')
     /\ (0 <= length pulses <= 100)%nat
     /\ ((forall n, (pin_pos w <= n < pin_pos w')%nat -> pin_trace w n = true) ->
         pulses = []))
  /\ (forall fuel pulses w',
        read_pulses fuel timeout_ms w = Some (pulses, w') ->
        (0 <= length pulses <= 100)%nat)
  /\ (forall fuel n pulses w1 pulses' w',
        capture fuel n pulses w1 = Some (pulses', w') ->
        exists more, pulses' = pulses ++ more /\ (length more <= n)%nat)
  /\ (forall fuel n pulses w1 w3,
        wait_change fuel (fst (pin_value (snd (ticks_us w1))))
                    (fst (ticks_us w1)) (snd (pin_value (snd (ticks_us w1))))
        = Some (false, w3) ->
        capture fuel (S n) pulses w1 = Some (pulses, w3)).
Proof.
  intros Hms Hus Ht Hhalf Hhalf'. split; [|split; [|split]].
  - destruct w as [pin pp ms mp us up c]. cbn [ms_clock us_clock] in Hms, Hus.
    destruct (read_pulses_terminates pin ms us step Hms Hus timeout_ms c
                Ht Hhalf Hhalf' pp mp up)
      as (fuel & pulses & pp' & mp' & up' & Hr & Hlen & _ & _ & _ & Hhigh).
    exists fuel, pulses, (World pin pp' ms mp' us up' c).
    split; [done|]. split; [lia|]. exact Hhigh.
  - intros fuel pulses w' H. apply read_pulses_length in H. lia.
  - intros fuel n pulses w1 pulses' w'. apply capture_appends.
  - intros fuel n pulses w1 w3 H. cbn [capture].
    destruct (ticks_us w1) as [t0 w2]. cbn [fst snd] in H.
    destruct (pin_value w2) as [level w2']. cbn [fst snd] in H.
    by rewrite H.
Qed.

End CaptureBounds.

(** * Learning: the deadline *)

Section Deadline.

Variables (pin : nat -> bool) (ms us : nat -> Z) (step : Z).
Hypothesis Hms : advancing step ms.
Hypothesis Hus : advancing step us.
Hypothesis Hhalf : 10100 + 3 * step < TICKS_HALF.
Hypothesis Hquiet : forall c, undecodable (World pin 0 ms 0 us 0 c).

#[local] Abbreviation W pp mp up c := (World pin pp ms mp us up c).

Variable d : Debug.decoder.
Hypothesis Hmode : Debug.learning_mode d = true.

(** A cycle in an environment where nothing decodes returns nothing,
    after at least one reading of the millisecond counter. *)
Lemma process_quiet pp mp up c :
  exists fuel pp' mp' up' c',
    Debug.process_ir_signal fuel d (W pp mp up c)
    = Some (Ok None, d, W pp' mp' up' c')
    /\ (mp < mp')%nat /\ ms mp' - ms mp <= 100 + 2 * step.
Proof.
  pose proof (advancing_step_nonneg _ _ Hms) as Hstep.
  assert (0 <= 100) as H0 by lia.
  assert (100 + step < TICKS_HALF) as H1 by lia.
  assert (10000 + step < TICKS_HALF) as H2 by lia.
  destruct (read_pulses_terminates pin ms us step Hms Hus 100 c H0 H1 H2
                                   pp mp up)
    as (fuel & pulses & pp' & mp' & up' & Hr & _ & _ & Hmp & Hpost & _).
  assert (decode_fun pulses = None) as Hdec.
  { eapply (Hquiet c); [|exact Hr]. by repeat split. }
  assert (exists c', Debug.process_ir_signal fuel d (W pp mp up c)
                     = Some (Ok None, d, W pp' mp' up' c')) as [c' Hp].
  { unfold Debug.process_ir_signal. rewrite Hr.
    destruct pulses as [|p pulses]; [by exists c|].
    destruct (decode_nec_debug_closed (Debug.debug_mode d) (p :: pulses))
      as [evs ->].
    rewrite Hdec. destruct (Debug.debug_mode d); by eexists. }
  by exists fuel, pp', mp', up', c'.
Qed.

(** The loop ends with the deadline passed and the decoder untouched. *)
Lemma learn_loop_expires (s : nat) :
  forall n pp mp up c M,
    (M - mp <= n)%nat -> ms s + 10000 <= ms M ->
    (s <= mp)%nat -> ms mp - ms s <= 10100 + 3 * step ->
    exists k fuel w',
      Debug.learn_loop k fuel (ms s mod TICKS_PERIOD) d (W pp mp up c)
      = Some (Ok tt, d, w').
Proof.
  pose proof (advancing_step_nonneg _ _ Hms) as Hstep.
  induction n as [|n IH]; intros pp mp up c M Hn HM Hs Hnear;
    pose proof (advancing_le _ _ _ _ Hms Hs) as Hle;
    destruct (Z.ltb_spec (ms mp - ms s) 10000) as [Hlt|Hge].
  - assert (M <= mp)%nat as HMle by lia.
    pose proof (advancing_le _ _ _ _ Hms HMle). lia.
  - exists 1%nat, 0%nat. eexists. cbn [Debug.learn_loop]. rewrite Hmode.
    cbn [ticks_ms pin_trace pin_pos ms_clock ms_pos us_clock us_pos console].
    rewrite ticks_diff_exact by lia.
    destruct (Z.ltb_spec (ms mp - ms s) 10000); [lia|]. reflexivity.
  - destruct (process_quiet pp (S mp) up c)
      as (fuel1 & pp' & mp' & up' & c' & Hp & Hmp & Hpost).
    pose proof (adv_step _ _ Hms mp).
    destruct (IH pp' mp' up' c' M) as (k & fuel2 & w' & Hk); try lia.
    exists (S k), (Nat.max fuel1 fuel2), w'.
    cbn [Debug.learn_loop]. rewrite Hmode.
    cbn [ticks_ms pin_trace pin_pos ms_clock ms_pos us_clock us_pos console].
    rewrite ticks_diff_exact by lia.
    destruct (Z.ltb_spec (ms mp - ms s) 10000); [|lia].
    rewrite (process_ir_signal_mono _ (Nat.max fuel1 fuel2) _ _ _ Hp) by lia.
    unfold sleep_ms.
    apply (learn_loop_mono _ _ _ _ _ _ _ _ Hk); lia.
  - exists 1%nat, 0%nat. eexists. cbn [Debug.learn_loop]. rewrite Hmode.
    cbn [ticks_ms pin_trace pin_pos ms_clock ms_pos us_clock us_pos console].
    rewrite ticks_diff_exact by lia.
    destruct (Z.ltb_spec (ms mp - ms s) 10000); [lia|]. reflexivity.
Qed.

End Deadline.

Section Timeout.

Implicit Types (d : Debug.decoder) (name : string).

Lemma undecodable_env w w' : same_env w w' -> undecodable w -> undecodable w'.
Proof.
  intros (Hp & Hm & Hu) H fuel w1 pulses w2 (Hp1 & Hm1 & Hu1).
  apply H. repeat split; congruence.
Qed.

Lemma learn_button_expired fuel k d name w d1 start_time w1 w2 :
  Debug.arm d name w = (Some (d1, start_time), w1) ->
  Debug.learn_loop k fuel start_time d1 w1 = Some (Ok tt, d1, w2) ->
  forall fuel', (Nat.max k fuel <= fuel')%nat ->
    Debug.learn_button fuel' d name w
    = Some (Ok false, Debug.set_learning_mode d1 false, print [EvTimeout] w2).
Proof.
  intros Harm Hk fuel' Hf. unfold Debug.learn_button. rewrite Harm.
  rewrite (learn_loop_mono _ fuel' _ fuel' _ _ _ _ Hk) by lia.
  destruct (arm_inv _ _ _ _ _ _ Harm) as [_ ->]. reflexivity.
Qed.

(** In learning mode a cycle either leaves the decoder as it was or
    leaves learning mode. *)
Lemma process_in_learning fuel d w r d' w' :
  Debug.learning_mode d = true ->
  Debug.process_ir_signal fuel d w = Some (r, d', w') ->
  d' = d \/ Debug.learning_mode d' = false.
Proof.
  intros Hmode. unfold Debug.process_ir_signal.
  destruct (read_pulses fuel 100 w) as [[pulses w1]|]; [|done].
  destruct pulses as [|p pulses]; [intros [= _ <- _]; by left|].
  destruct (Debug.decode_nec _ _) as [[code evs]|]; [|intros [= _ <- _]; by left].
  rewrite Hmode.
  destruct code as [[|b c]|]; intros [= _ <- _]; by auto.
Qed.

Lemma learn_loop_untouched k fuel start_time d w r d' w' :
  Debug.learn_loop k fuel start_time d w = Some (r, d', w') ->
  d' = d \/ Debug.learning_mode d' = false.
Proof.
  revert d w. induction k as [|k IH]; intros d w; [done|].
  cbn [Debug.learn_loop].
  destruct (Debug.learning_mode d) eqn:Hmode; [|intros [= _ <- _]; by right].
  destruct (ticks_ms w) as [now w1].
  destruct (_ <? _); [|intros [= _ <- _]; by left].
  destruct (Debug.process_ir_signal fuel d w1) as [[[r1 d2] w2]|] eqn:Hp; [|done].
  destruct (process_in_learning _ _ _ _ _ _ Hmode Hp) as [-> | Hoff].
  - destruct r1; [apply IH | intros [= _ <- _]; by left].
  - destruct r1; [|intros [= _ <- _]; by right].
    intros H. destruct (IH _ _ H) as [-> | ?]; by right.
Qed.

(** C5: when learning is armed for a key of [outputs] and no cycle
    decodes a code before the deadline, [learn_button] returns [False],
    prints the timeout, leaves learning mode, and leaves the table of
    codes exactly as it was.  The deadline is tested at the start of
    each cycle, so the cycles before the deadline are those that the
    test admits.  First for any run in which every such cycle returns
    nothing; then for every environment in which the clocks advance and
    no capture decodes, where such a run is shown to happen; last,
    whenever an armed [learn_button] returns [False] the table is the
    one it started with. *)
Theorem learn_times_out d name w d1 start_time w1 :
  Debug.arm d name w = (Some (d1, start_time), w1) ->
  (forall fuel w2,
     expires fuel start_time d1 w1 w2 ->
     exists fuel0 d',
       (forall fuel', (fuel0 <= fuel')%nat ->
          Debug.learn_button fuel' d name w
          = Some (Ok false, d', print [EvTimeout] w2))
       /\ Debug.button_codes d' = Debug.button_codes d
       /\ Debug.learning_mode d' = false)
  /\ (forall step,
        advancing step (ms_clock w) -> advancing step (us_clock w) ->
        10100 + 3 * step < TICKS_HALF ->
        undecodable w ->
        exists fuel0 d' w',
          (forall fuel', (fuel0 <= fuel')%nat ->
             Debug.learn_button fuel' d name w = Some (Ok false, d', w'))
          /\ Debug.button_codes d' = Debug.button_codes d
          /\ Debug.learning_mode d' = false
          /\ last (console w') = Some EvTimeout)
  /\ (forall fuel d' w',
        Debug.learn_button fuel d name w = Some (Ok false, d', w') ->
        Debug.button_codes d' = Debug.button_codes d
        /\ Debug.learning_mode d' = false).
Proof.
  intros Harm. pose proof (arm_inv _ _ _ _ _ _ Harm) as [Hout Hd1].
  split; [|split].
  3:{ intros fuel d' w'. unfold Debug.learn_button. rewrite Harm.
      destruct (Debug.learn_loop fuel fuel start_time d1 w1)
        as [[[[[]|e] d2] w2]|] eqn:Hl; [|done|done].
      destruct (Debug.learning_mode d2) eqn:Hmode; [|done].
      intros [= <- _].
      destruct (learn_loop_untouched _ _ _ _ _ _ _ _ Hl) as [-> | Hoff];
        [by subst d1 | congruence]. }
  - intros fuel w2 Hex.
    destruct (expires_loop _ _ _ _ _ Hex) as [k Hk]; [by subst d1|].
    exists (Nat.max k fuel), (Debug.set_learning_mode d1 false).
    split; [|by subst d1].
    by apply (learn_button_expired fuel k d name w d1 start_time w1 w2).
  - intros step Hms Hus Hhalf Hq.
    destruct w as [pin pp ms mp us up c]. cbn [ms_clock us_clock] in Hms, Hus.
    assert (start_time = ms mp mod TICKS_PERIOD
            /\ w1 = World pin pp ms (S mp) us up (c ++ [EvLearnStart name]))
      as [-> ->].
    { unfold Debug.arm in Harm. destruct Hout as [p Hp]. rewrite Hp in Harm.
      cbn in Harm. by injection Harm as _ <- <-. }
    destruct (adv_far _ _ Hms (S mp) (ms mp + 10000)) as (M & _ & HM).
    pose proof (advancing_step_nonneg _ _ Hms) as Hstep.
    pose proof (adv_step _ _ Hms mp).
    assert (forall c0, undecodable (World pin 0 ms 0 us 0 c0)) as Hq0.
    { intros c0. eapply undecodable_env; [|exact Hq]. by repeat split. }
    assert (Debug.learning_mode d1 = true) as Hmode by (by subst d1).
    destruct (learn_loop_expires pin ms us step Hms Hus Hhalf Hq0 d1 Hmode mp
                (M - S mp)%nat pp (S mp) up (c ++ [EvLearnStart name]) M)
      as (k & fuel & w' & Hk); try lia.
    exists (Nat.max k fuel), (Debug.set_learning_mode d1 false),
           (print [EvTimeout] w').
    split; [by apply (learn_button_expired fuel k _ _ _ _ _ _ _ Harm)|].
    split; [by subst d1|]. split; [by subst d1|].
    rewrite console_print. apply last_snoc.
Qed.

End Timeout.

(** * The statements at concrete inputs *)

Section Witnesses.

Lemma wait_low_high fuel timeout_ms start_time w b w' :
  (forall n, pin_trace w n = true) ->
  wait_low fuel timeout_ms start_time w = Some (b, w') -> b = false.
Proof.
  revert w. induction fuel as [|fuel IH]; intros w Hhigh; [done|].
  cbn [wait_low pin_value]. rewrite Hhigh. unfold ticks_ms.
  cbn [pin_trace pin_pos ms_clock ms_pos us_clock us_pos console].
  destruct (_ >? _); [by intros [= <- _]|].
  apply IH. exact Hhigh.
Qed.

Lemma high_line_undecodable w :
  (forall n, pin_trace w n = true) -> undecodable w.
Proof.
  intros Hhigh fuel w1 pulses w2 (Hp & _ & _). unfold read_pulses, ticks_ms.
  destruct (wait_low _ _ _ _) as [[b w3]|] eqn:Hw; [|done].
  apply wait_low_high in Hw as ->; [by intros [= <- _]|].
  cbn [pin_trace]. intros n. by rewrite Hp.
Qed.

Lemma linear_clock_advancing (step : Z) :
  0 < step -> advancing step (fun n => step * Z.of_nat n).
Proof.
  intros Hs. split.
  - intros n. nia.
  - intros n. nia.
  - intros n t. exists (Nat.max n (Z.to_nat t)). split; [lia|]. nia.
Qed.

End Witnesses.

Lemma decode_valid_frame_witness :
  (66 <= length Examples.frame)%nat
  /\ Main.decode_nec Examples.frame = Ok (Some [0x61; 0xD6; 0x48; 0xB7]).
Proof.
  split; [vm_compute; lia|].
  refine (proj1 (decode_valid_frame Examples.frame Spec.example_bits 9000 4500
                   _ _ _ _ _ _ _)); try reflexivity; try (vm_compute; lia);
    try lia.
  intros k b H.
  do 32 (destruct k as [|k];
         [ cbn in H; injection H as <-; eexists; split; [reflexivity|];
           first [ left; split; [unfold Spec.is_zero_space; simpl; lia | reflexivity]
                 | right; split; [unfold Spec.is_one_space; simpl; lia | reflexivity] ]
         | ]).
  discriminate H.
Defined.

Lemma decode_short_none_witness :
  (length Examples.short_frame < 66)%nat
  /\ Main.decode_nec Examples.short_frame = Ok None.
Proof.
  assert (length Examples.short_frame < 66)%nat as H by (vm_compute; lia).
  split; [exact H|]. exact (proj1 (decode_short_none Examples.short_frame H)).
Defined.

Lemma decode_boundary_none_witness :
  (66 <= length (<[1%nat := 4000%Z]> Examples.frame))%nat
  /\ Main.decode_nec (<[1%nat := 4000%Z]> Examples.frame) = Ok None
  /\ Main.decode_nec (<[5%nat := 700%Z]> Examples.frame) = Ok None.
Proof.
  assert (66 <= length (<[1%nat := 4000%Z]> Examples.frame))%nat as H
      by (vm_compute; lia).
  assert (66 <= length (<[5%nat := 700%Z]> Examples.frame))%nat as H'
      by (vm_compute; lia).
  split; [exact H|]. split.
  - refine (proj1 (decode_boundary_none _ H _)). left. reflexivity.
  - refine (proj1 (decode_boundary_none _ H' _)). right. right.
    exists 1%nat. split; [lia|]. left. reflexivity.
Defined.

Lemma decode_first_66_witness :
  Main.decode_nec Examples.frame = Main.decode_nec Examples.burst.
Proof.
  refine (proj1 (decode_first_66 Examples.frame Examples.burst _ _ _)).
  - vm_compute; lia.
  - vm_compute; lia.
  - reflexivity.
Defined.

Lemma bind_lookup_witness :
  Debug.lookup (Debug.set_code Debug.init [0x11; 0x22; 0x33; 0x44] "UP")
               [0x61; 0xD6; 0xD8; 0x27]
  = Debug.lookup Debug.init [0x61; 0xD6; 0xD8; 0x27].
Proof.
  refine (proj2 (bind_lookup Debug.init [0x11; 0x22; 0x33; 0x44]) _ _).
  intros H. discriminate H.
Defined.

Lemma arm_checks_name_witness :
  Debug.learn_button 0 Debug.init "FOO" (Examples.idle 50)
  = Some (Ok false, Debug.init, print [EvUnknownButton "FOO"] (Examples.idle 50))
  /\ exists d1 start_time w1,
       Debug.arm Debug.init "UP" (Examples.idle 50) = (Some (d1, start_time), w1)
       /\ Debug.learning_mode d1 = true.
Proof.
  split.
  - refine (proj2 (proj1 (arm_checks_name Debug.init "FOO" (Examples.idle 50)) _) 0%nat).
    vm_compute. reflexivity.
  - destruct (proj2 (arm_checks_name Debug.init "UP" (Examples.idle 50)))
      as (d1 & start_time & w1 & Harm & Hmode & _).
    + exists 1. vm_compute. reflexivity.
    + exists d1, start_time, w1. split; [exact Harm | exact Hmode].
Defined.

Lemma learn_binds_witness :
  exists fuel0 d' w',
    Debug.learn_button fuel0 Debug.init "UP" (Examples.sending Examples.burst)
    = Some (Ok true, d', w')
    /\ Debug.lookup d' [0x61; 0xD6; 0x48; 0xB7] = Some "UP"%string
    /\ Debug.lookup d' [0x61; 0xD6; 0xD8; 0x27] = Some "UP"%string.
Proof.
  destruct (learn_binds 5 Debug.init "UP" (Examples.sending Examples.burst)
              (Debug.set_learning Debug.init true "UP")
              (fst (ticks_ms (print [EvLearnStart "UP"]
                                    (Examples.sending Examples.burst))))
              (snd (ticks_ms (print [EvLearnStart "UP"]
                                    (Examples.sending Examples.burst))))
              [0x61; 0xD6; 0x48; 0xB7])
    as (fuel0 & d' & w' & Hrun & _ & Hcode & _ & _ & Hold).
  - vm_compute. reflexivity.
  - eapply hears_now.
    + vm_compute. reflexivity.
    + vm_compute. reflexivity.
    + vm_compute. reflexivity.
  - exists fuel0, d', w'. split; [apply Hrun; lia|]. split; [exact Hcode|].
    apply Hold. vm_compute. reflexivity.
Defined.

Lemma learn_times_out_witness :
  exists fuel0 d' w',
    Debug.learn_button fuel0 Debug.init "UP" (Examples.idle 50)
    = Some (Ok false, d', w')
    /\ Debug.button_codes d' = Debug.button_codes Debug.init.
Proof.
  destruct (proj1 (proj2 (learn_times_out Debug.init "UP" (Examples.idle 50)
              (Debug.set_learning Debug.init true "UP")
              (fst (ticks_ms (print [EvLearnStart "UP"] (Examples.idle 50))))
              (snd (ticks_ms (print [EvLearnStart "UP"] (Examples.idle 50))))
              ltac:(vm_compute; reflexivity))) 50)
    as (fuel0 & d' & w' & Hrun & Hcodes & _).
  - apply linear_clock_advancing. lia.
  - apply linear_clock_advancing. lia.
  - vm_compute. reflexivity.
  - apply high_line_undecodable. reflexivity.
  - exists fuel0, d', w'. split; [apply Hrun; lia | exact Hcodes].
Defined.

Lemma read_pulses_bounded_witness :
  exists fuel pulses w',
    read_pulses fuel 100 (Examples.idle 50) = Some (pulses, w')
    /\ (0 <= length pulses <= 100)%nat.
Proof.
  destruct (proj1 (read_pulses_bounded 50 100 (Examples.idle 50)
                     (linear_clock_advancing 50 ltac:(lia))
                     (linear_clock_advancing 50 ltac:(lia))
                     ltac:(lia) ltac:(vm_compute; reflexivity)
                     ltac:(vm_compute; reflexivity)))
    as (fuel & pulses & w' & Hr & Hlen & _).
  exists fuel, pulses, w'. split; [exact Hr | exact Hlen].
Defined.

(** * Further properties of the decoders *)

Section DecoderMore.

Implicit Types (pulses bits code : list Z) (i j k : nat).

Lemma bit_of_inv s b :
  bit_of s = Some b ->
  (Spec.is_zero_space s /\ b = 0) \/ (Spec.is_one_space s /\ b = 1).
Proof.
  unfold bit_of, Spec.is_zero_space, Spec.is_one_space.
  destruct (Z.ltb_spec 400 s), (Z.ltb_spec s 700); simpl;
    try (intros [= <-]; left; split; [lia|done]);
    destruct (Z.ltb_spec 1500 s), (Z.ltb_spec s 1800); simpl;
    try done; intros [= <-]; right; split; (lia || done).
Qed.

Lemma bits_of_lookup (ss bs : list Z) k b :
  bits_of ss = Some bs -> bs !! k = Some b ->
  exists s, ss !! k = Some s /\ bit_of s = Some b.
Proof.
  revert bs k. induction ss as [|s r IH]; intros bs k; cbn [bits_of].
  - intros [= <-]. by rewrite lookup_nil.
  - destruct (bit_of s) as [b0|] eqn:Hb0; [|done].
    destruct (bits_of r) as [bs'|] eqn:Hr; [|done]. intros [= <-].
    destruct k as [|k]; cbn.
    + intros [= <-]. by exists s.
    + intros Hk. by apply (IH bs').
Qed.

Lemma head_ok_inv pulses :
  (66 <= length pulses)%nat -> head_ok pulses = true ->
  exists p0 p1, pulses !! 0%nat = Some p0 /\ 8500 < p0 < 9500
                /\ pulses !! 1%nat = Some p1 /\ 4000 < p1 < 5000.
Proof.
  intros Hlen. unfold head_ok. intros H.
  apply andb_prop in H as [H0 H1].
  apply andb_prop in H0 as [Ha Hb]. apply andb_prop in H1 as [Hc Hd].
  apply Z.ltb_lt in Ha, Hb, Hc, Hd.
  exists (pulses !!! 0%nat), (pulses !!! 1%nat).
  rewrite !list_lookup_lookup_total_lt by lia. repeat split; done.
Qed.

Lemma decode_fun_valid pulses bits :
  valid_frame pulses bits -> decode_fun pulses = Some (Spec.pack_msb_first bits).
Proof.
  intros (Hlen & (p0 & p1 & H0 & Hp0 & H1 & Hp1) & Hbits & Hsp).
  unfold decode_fun.
  replace (length pulses <? 66)%nat with false by (symmetry; by apply Nat.ltb_ge).
  rewrite (head_ok_true pulses p0 p1) by done.
  assert (bits_of (spaces_at pulses (range 2 66 2)) = Some bits) as Hb.
  { apply bits_of_spaces, Forall2_same_length_lookup. split; [done|].
    intros k i b Hi Hk.
    assert (k < 32)%nat as Hk32 by (apply lookup_lt_Some in Hk; lia).
    rewrite range_2_66_lookup in Hi by done. injection Hi as <-.
    destruct (Hsp k b Hk) as (s & Hs & Hw). exists s.
    split; [rewrite <- Hs; f_equal; lia|].
    destruct Hw as [[Hz ->] | [Ho ->]]; [by apply bit_of_zero | by apply bit_of_one]. }
  rewrite Hb. simpl. f_equal. apply to_bytes_pack. by eapply bits_of_01.
Qed.

Lemma decode_fun_inv pulses code :
  decode_fun pulses = Some code ->
  exists bits, valid_frame pulses bits /\ code = Spec.pack_msb_first bits.
Proof.
  unfold decode_fun.
  destruct (length pulses <? 66)%nat eqn:Hlen; [done|]. apply Nat.ltb_ge in Hlen.
  destruct (head_ok pulses) eqn:Hh; [|done].
  destruct (bits_of _) as [bits|] eqn:Hb; [|done]. intros [= <-].
  exists bits. split.
  - split; [done|]. split; [by apply head_ok_inv|]. split.
    + apply bits_of_length in Hb. unfold spaces_at in Hb.
      by rewrite length_map in Hb.
    + intros k b Hk.
      destruct (bits_of_lookup _ _ _ _ Hb Hk) as (s & Hs & Hbit).
      exists s. split; [|by apply bit_of_inv].
      assert (k < 32)%nat as Hk32.
      { apply lookup_lt_Some in Hs. unfold spaces_at in Hs.
        by rewrite length_map in Hs. }
      unfold spaces_at in Hs. change (map ?f ?l) with (f <$> l) in Hs.
      rewrite list_lookup_fmap, range_2_66_lookup in Hs by done.
      injection Hs as <-.
      replace (3 + 2 * k)%nat with (2 + 2 * k + 1)%nat by lia.
      apply list_lookup_lookup_total_lt. lia.
  - apply to_bytes_pack. by eapply bits_of_01.
Qed.

(** X1: Neither decoder raises: the length test keeps every index in range,
    and the test for ['?'] keeps the string away from [|]. *)
Theorem decode_never_raises pulses :
  (exists r, Main.decode_nec pulses = Ok r)
  /\ (forall debug, exists r, Debug.decode_nec debug pulses = Ok r).
Proof.
  split.
  - eexists. apply decode_nec_main_closed.
  - intros debug. destruct (decode_nec_debug_closed debug pulses) as [evs H].
    eexists. exact H.
Qed.

(** X2: A code is returned exactly for the valid frames: decoding is all or
    nothing, and the code is the packing of the 32 bits of the frame. *)
Theorem decode_some_iff pulses code :
  Main.decode_nec pulses = Ok (Some code)
  <-> exists bits, valid_frame pulses bits /\ code = Spec.pack_msb_first bits.
Proof.
  rewrite decode_nec_main_closed. split.
  - intros [= H]. by apply decode_fun_inv.
  - intros (bits & Hv & ->). by rewrite (decode_fun_valid _ _ Hv).
Qed.

End DecoderMore.

Section DecoderEntries.

Implicit Types (pulses bits code : list Z) (i j k : nat).

Lemma range_2_66_elem i :
  i ∈ range 2 66 2 -> exists k, (k < 32)%nat /\ i = (2 + 2 * k)%nat.
Proof.
  rewrite range_2_66_positions. intros Hi.
  apply list_elem_of_In, in_map_iff in Hi as (k & <- & Hk).
  apply in_seq in Hk. exists k. split; [lia|done].
Qed.

Lemma decode_fun_insert pulses j (v : Z) :
  j <> 0%nat -> j <> 1%nat ->
  (forall k, (k < 32)%nat -> j <> (3 + 2 * k)%nat) ->
  decode_fun (<[j := v]> pulses) = decode_fun pulses.
Proof.
  intros H0 H1 Hodd. unfold decode_fun. rewrite length_insert.
  destruct (length pulses <? 66)%nat; [done|].
  assert (head_ok (<[j := v]> pulses) = head_ok pulses) as ->.
  { unfold head_ok. by rewrite !list_lookup_total_insert_ne by done. }
  assert (spaces_at (<[j := v]> pulses) (range 2 66 2)
          = spaces_at pulses (range 2 66 2)) as ->; [|done].
  unfold spaces_at. apply map_ext_in. intros i Hi.
  apply list_elem_of_In, range_2_66_elem in Hi as (k & Hk & ->).
  apply list_lookup_total_insert_ne. specialize (Hodd k Hk). lia.
Qed.

(** X3: The decoders read the two header entries and the 32 spaces, and
    nothing else: any other entry, a mark among them, can be replaced
    by any value without changing the result. *)
Theorem decode_ignores_other_entries pulses j (v : Z) :
  j <> 0%nat -> j <> 1%nat ->
  (forall k, (k < 32)%nat -> j <> (3 + 2 * k)%nat) ->
  Main.decode_nec (<[j := v]> pulses) = Main.decode_nec pulses
  /\ forall debug,
       rmap fst (Debug.decode_nec debug (<[j := v]> pulses))
       = rmap fst (Debug.decode_nec debug pulses).
Proof.
  intros H0 H1 Hodd.
  pose proof (decode_fun_insert pulses j v H0 H1 Hodd) as Hf. split.
  - by rewrite !decode_nec_main_closed, Hf.
  - intros debug.
    destruct (decode_nec_debug_closed debug (<[j := v]> pulses)) as [evs ->].
    destruct (decode_nec_debug_closed debug pulses) as [evs' ->].
    simpl. by rewrite Hf.
Qed.

(** *** Different bits give different codes *)

Lemma msb_value_inj (l l' : list Z) :
  length l = length l' ->
  Forall (fun b => b = 0 \/ b = 1) l -> Forall (fun b => b = 0 \/ b = 1) l' ->
  Spec.msb_value l = Spec.msb_value l' -> l = l'.
Proof.
  revert l'. induction l as [|b r IH]; intros [|b' r'] Hlen Hl Hl'; try done.
  cbn [Spec.msb_value]. injection Hlen as Hlen.
  inversion Hl as [|? ? Hb Hr]; subst. inversion Hl' as [|? ? Hb' Hr']; subst.
  pose proof (msb_value_bound r Hr) as Hv.
  pose proof (msb_value_bound r' Hr') as Hv'.
  rewrite <- Hlen in *.
  set (P := 2 ^ Z.of_nat (length r)) in *.
  intros Heq.
  assert (b = b') as <- by (destruct Hb as [-> | ->], Hb' as [-> | ->]; lia).
  f_equal. apply IH; try done. lia.
Qed.

Lemma valid_frame_bits pulses bits :
  valid_frame pulses bits ->
  length bits = 32%nat /\ Forall (fun b => b = 0 \/ b = 1) bits.
Proof.
  intros (_ & _ & Hlen & Hsp). split; [done|].
  apply Forall_lookup. intros k b Hk.
  destruct (Hsp k b Hk) as (s & _ & [[_ ->] | [_ ->]]); auto.
Qed.

Lemma pack_msb_first_inj (bits bits' : list Z) :
  length bits = 32%nat -> length bits' = 32%nat ->
  Forall (fun b => b = 0 \/ b = 1) bits ->
  Forall (fun b => b = 0 \/ b = 1) bits' ->
  Spec.pack_msb_first bits = Spec.pack_msb_first bits' -> bits = bits'.
Proof.
  intros Hlen Hlen' H01 H01'. unfold Spec.pack_msb_first. intros [= Ha Hb Hc Hd].
  apply msb_value_inj in Ha, Hb, Hc, Hd;
    try (rewrite ?length_take, ?length_drop; lia);
    try (apply Forall_take; try apply Forall_drop; done).
  rewrite <- (take_drop 8 bits), <- (take_drop 8 bits'), Ha. f_equal.
  rewrite <- (take_drop 8 (drop 8 bits)), <- (take_drop 8 (drop 8 bits')), Hb.
  f_equal. rewrite !drop_drop. change (8 + 8)%nat with 16%nat.
  rewrite <- (take_drop 8 (drop 16 bits)), <- (take_drop 8 (drop 16 bits')), Hc.
  f_equal. rewrite !drop_drop. change (16 + 8)%nat with 24%nat.
  rewrite <- (take_drop 8 (drop 24 bits)), <- (take_drop 8 (drop 24 bits')), Hd.
  f_equal. rewrite !drop_drop.
  by rewrite !drop_ge by lia.
Qed.

(** X4: Two valid frames decode to the same code exactly when they carry
    the same 32 bits: no two bit patterns share a code. *)
Theorem decode_same_code_iff pulses pulses' bits bits' :
  valid_frame pulses bits -> valid_frame pulses' bits' ->
  (Main.decode_nec pulses = Main.decode_nec pulses' <-> bits = bits').
Proof.
  intros Hv Hv'. rewrite !decode_nec_main_closed.
  rewrite (decode_fun_valid _ _ Hv), (decode_fun_valid _ _ Hv').
  destruct (valid_frame_bits _ _ Hv) as [Hlen H01].
  destruct (valid_frame_bits _ _ Hv') as [Hlen' H01'].
  split.
  - intros H. apply pack_msb_first_inj; try done. congruence.
  - by intros ->.
Qed.

End DecoderEntries.

(** *** What the debug decoder prints *)

Section DecoderPrints.

Implicit Types (pulses bits code : list Z) (i j k : nat).

Lemma bit_of_None_inv s :
  bit_of s = None -> ~ Spec.is_zero_space s /\ ~ Spec.is_one_space s.
Proof.
  intros H. split; intros Hw.
  - by rewrite (bit_of_zero _ Hw) in H.
  - by rewrite (bit_of_one _ Hw) in H.
Qed.

Lemma bit_of_Some_inv s :
  is_Some (bit_of s) -> Spec.is_zero_space s \/ Spec.is_one_space s.
Proof. intros [b Hb]. destruct (bit_of_inv _ _ Hb) as [[? _] | [? _]]; auto. Qed.

(** The loop prints nothing unless it returns early, and then it names
    the first index whose space is in neither window. *)
Lemma collect_bits_events debug pulses (idx : list nat) :
  Forall (fun i => (i + 1 < length pulses)%nat) idx ->
  forall acc r evs,
    Debug.collect_bits debug pulses idx acc = Ok (r, evs) ->
    match r with
    | Some _ => evs = []
    | None =>
      exists n i s,
        idx !! n = Some i /\ pulses !! (i + 1)%nat = Some s
        /\ bit_of s = None /\ evs = Debug.dbg debug [EvBadBit i s]
        /\ forall m i', (m < n)%nat -> idx !! m = Some i' ->
             exists s', pulses !! (i' + 1)%nat = Some s' /\ is_Some (bit_of s')
    end.
Proof.
  induction 1 as [|i idx Hi _ IH]; intros acc r evs.
  - cbn [Debug.collect_bits]. by intros [= <- <-].
  - cbn [Debug.collect_bits].
    destruct (length pulses <=? i + 1)%nat eqn:Hle.
    { apply Nat.leb_le in Hle. lia. }
    rewrite (getitem_lt pulses (i + 1)), bind_ok by done.
    pose proof (list_lookup_lookup_total_lt pulses (i + 1) Hi) as Hs.
    set (s := pulses !!! (i + 1)%nat) in *.
    assert (forall acc', Debug.collect_bits debug pulses idx acc' = Ok (r, evs) ->
              is_Some (bit_of s) ->
              match r with
              | Some _ => evs = []
              | None =>
                exists n i0 s0,
                  (i :: idx) !! n = Some i0 /\ pulses !! (i0 + 1)%nat = Some s0
                  /\ bit_of s0 = None /\ evs = Debug.dbg debug [EvBadBit i0 s0]
                  /\ forall m i', (m < n)%nat -> (i :: idx) !! m = Some i' ->
                       exists s', pulses !! (i' + 1)%nat = Some s'
                                  /\ is_Some (bit_of s')
              end) as Hrec.
    { intros acc' Hc Hbit. specialize (IH _ _ _ Hc). destruct r; [done|].
      destruct IH as (n & i0 & s0 & Hn & Hs0 & Hb0 & Hev & Hbefore).
      exists (S n), i0, s0. repeat split; try done.
      intros [|m] i' Hm; cbn.
      - intros [= <-]. by exists s.
      - apply Hbefore. lia. }
    unfold bit_of in Hrec.
    destruct ((400 <? s) && (s <? 700)) eqn:H0; [intros Hc; by eapply Hrec|].
    destruct ((1500 <? s) && (s <? 1800)) eqn:H1; [intros Hc; by eapply Hrec|].
    intros [= <- <-]. exists 0%nat, i, s. repeat split; try done.
    + unfold bit_of. by rewrite H0, H1.
    + intros m i' Hm. lia.
Qed.

(** X5: With debugging off the decoder prints nothing; a decoded code is
    never accompanied by a message; and with debugging on a rejection
    prints one line, which names the first reason in the order of the
    tests: too few pulses, a header outside its windows, or the first
    space that is in neither window.  The message for too few bits is
    never printed. *)
Theorem decode_debug_prints pulses :
  (forall r evs, Debug.decode_nec false pulses = Ok (r, evs) -> evs = [])
  /\ (forall debug code evs,
        Debug.decode_nec debug pulses = Ok (Some code, evs) -> evs = [])
  /\ (forall evs,
        Debug.decode_nec true pulses = Ok (None, evs) ->
        ((length pulses < 66)%nat /\ evs = [EvFewPulses (length pulses)])
        \/ ((66 <= length pulses)%nat
            /\ exists p0 p1,
                 pulses !! 0%nat = Some p0 /\ pulses !! 1%nat = Some p1
                 /\ ~ (8500 < p0 < 9500 /\ 4000 < p1 < 5000)
                 /\ evs = [EvBadHeader p0 p1])
        \/ ((66 <= length pulses)%nat
            /\ exists k s,
                 (k < 32)%nat /\ pulses !! (3 + 2 * k)%nat = Some s
                 /\ ~ Spec.is_zero_space s /\ ~ Spec.is_one_space s
                 /\ evs = [EvBadBit (2 + 2 * k) s]
                 /\ forall k', (k' < k)%nat ->
                      exists s', pulses !! (3 + 2 * k')%nat = Some s'
                                 /\ (Spec.is_zero_space s'
                                     \/ Spec.is_one_space s'))).
Proof.
  assert (forall debug r evs,
            Debug.decode_nec debug pulses = Ok (r, evs) ->
            (length pulses < 66)%nat /\ r = None
              /\ evs = Debug.dbg debug [EvFewPulses (length pulses)]
            \/ (66 <= length pulses)%nat /\ head_ok pulses = false /\ r = None
               /\ evs = Debug.dbg debug [EvBadHeader (pulses !!! 0%nat)
                                                     (pulses !!! 1%nat)]
            \/ (66 <= length pulses)%nat
               /\ exists r0,
                    Debug.collect_bits debug pulses (range 2 66 2) [] = Ok (r0, evs)
                    /\ (r0 = None -> r = None)
                    /\ (forall bs, r0 = Some bs -> r = Some (Debug.to_bytes bs)))
    as Hcases.
  { intros debug r evs. unfold Debug.decode_nec.
    destruct (length pulses <? 66)%nat eqn:Hlen.
    { apply Nat.ltb_lt in Hlen. intros [= <- <-]. by left. }
    apply Nat.ltb_ge in Hlen.
    rewrite header_ok_debug, header_ok_main, bind_ok by done.
    destruct (head_ok pulses) eqn:Hh; cbn [negb].
    2:{ destruct debug.
        - rewrite (getitem_lt pulses 0), bind_ok by lia.
          rewrite (getitem_lt pulses 1), bind_ok by lia.
          intros [= <- <-]. right; left. done.
        - intros [= <- <-]. right; left. done. }
    intros Hdec. right; right. split; [done|]. revert Hdec.
    destruct (collect_bits_closed debug pulses (range 2 66 2) []) as [evs0 Hc].
    { eapply Forall_impl; [apply range_2_66_bound|]. intros i Hi. simpl in Hi. lia. }
    rewrite Hc, bind_ok.
    destruct (bits_of (spaces_at pulses (range 2 66 2))) as [bs|] eqn:Hb;
      cbn [fmap option_fmap option_map app].
    - apply bits_of_length in Hb. unfold spaces_at in Hb.
      rewrite length_map in Hb. change (length (range 2 66 2)) with 32%nat in Hb.
      rewrite Hb. change (32 <? 32)%nat with false. cbv iota.
      intros [= <- <-]. eexists. split; [reflexivity|]. split; [done|].
      by intros bs' [= <-].
    - intros [= <- <-]. eexists. split; [reflexivity|]. split; [done|].
      by intros bs' [=]. }
  assert (Forall (fun i => (i + 1 < length pulses)%nat) (range 2 66 2)
          \/ (length pulses < 66)%nat) as Hrange.
  { destruct (Nat.lt_ge_cases (length pulses) 66) as [?|Hlen]; [by right|left].
    eapply Forall_impl; [apply range_2_66_bound|]. intros i Hi. simpl in Hi. lia. }
  split; [|split].
  - intros r evs H.
    destruct (Hcases _ _ _ H) as [(_ & _ & ->) | [(_ & _ & _ & ->)
                                 | (Hlen & r0 & Hc & _)]]; try done.
    destruct Hrange as [Hrange|]; [|lia].
    pose proof (collect_bits_events _ _ _ Hrange _ _ _ Hc) as Hev.
    destruct r0; [done|]. by destruct Hev as (n & i & s & _ & _ & _ & -> & _).
  - intros debug code evs H.
    destruct (Hcases _ _ _ H) as [(_ & [=] & _) | [(_ & _ & [=] & _)
                                 | (Hlen & r0 & Hc & Hn & _)]].
    destruct Hrange as [Hrange|]; [|lia].
    pose proof (collect_bits_events _ _ _ Hrange _ _ _ Hc) as Hev.
    destruct r0; [done|]. by specialize (Hn eq_refl).
  - intros evs H.
    destruct (Hcases _ _ _ H) as [(Hlen & _ & ->) | [(Hlen & Hh & _ & ->)
                                 | (Hlen & r0 & Hc & _ & Hs)]].
    + by left.
    + right; left. split; [done|].
      exists (pulses !!! 0%nat), (pulses !!! 1%nat).
      rewrite !list_lookup_lookup_total_lt by lia. repeat split; try done.
      intros [Hp0 Hp1].
      rewrite (head_ok_true pulses (pulses !!! 0%nat) (pulses !!! 1%nat)) in Hh;
        try done; by apply list_lookup_lookup_total_lt; lia.
    + right; right. split; [done|].
      destruct Hrange as [Hrange|]; [|lia].
      pose proof (collect_bits_events _ _ _ Hrange _ _ _ Hc) as Hev.
      destruct r0 as [bs|]; [by specialize (Hs bs eq_refl)|].
      destruct Hev as (n & i & s & Hn & Hsp & Hb & -> & Hbefore).
      assert (n < 32)%nat as Hn32.
      { apply lookup_lt_Some in Hn. by change (length (range 2 66 2)) with 32%nat in Hn. }
      rewrite range_2_66_lookup in Hn by done. injection Hn as <-.
      exists n, s. split; [done|].
      replace (3 + 2 * n)%nat with (2 + 2 * n + 1)%nat by lia.
      split; [done|]. destruct (bit_of_None_inv _ Hb) as [Hz Ho].
      split; [done|]. split; [done|]. split; [done|].
      intros k' Hk'.
      destruct (Hbefore k' (2 + 2 * k')%nat Hk') as (s' & Hs' & Hbit).
      { apply range_2_66_lookup. lia. }
      exists s'. replace (3 + 2 * k')%nat with (2 + 2 * k' + 1)%nat by lia.
      split; [done|]. by apply bit_of_Some_inv.
Qed.

End DecoderPrints.

(** * Further properties of the capture *)

Section CaptureMore.

Variables (pin : nat -> bool) (ms us : nat -> Z) (step : Z).

#[local] Abbreviation W pp mp up c := (World pin pp ms mp us up c).

(** The wait for a low line reads the line and the millisecond counter
    only. *)
Lemma wait_low_shape fuel timeout_ms start_time up c :
  forall pp mp b w',
    wait_low fuel timeout_ms start_time (W pp mp up c) = Some (b, w') ->
    exists pp' mp', w' = W pp' mp' up c /\ (pp < pp')%nat /\ (mp <= mp')%nat.
Proof.
  induction fuel as [|fuel IH]; intros pp mp b w'; [done|].
  cbn [wait_low pin_value ticks_ms pin_trace pin_pos ms_clock
                ms_pos us_clock us_pos console].
  destruct (pin pp).
  - destruct (_ >? _).
    + intros [= <- <-]. exists (S pp), (S mp). repeat split; lia.
    + intros H. destruct (IH _ _ _ _ H) as (pp' & mp' & -> & ? & ?).
      exists pp', mp'. repeat split; lia.
  - intros [= <- <-]. exists (S pp), mp. repeat split; lia.
Qed.

Hypothesis Hus : advancing step us.
Hypothesis Hhalf : 10000 + step < TICKS_HALF.

(** When the wait for a change sees the change, the next reading of the
    microsecond counter is at most [10000 + step] after the one at [s]. *)
Lemma wait_change_elapsed fuel level (s : nat) mp c :
  forall pp up b w',
    (s <= up)%nat -> us up - us s <= 10000 + step ->
    wait_change fuel level (us s mod TICKS_PERIOD) (W pp mp up c) = Some (b, w') ->
    exists pp' up',
      w' = W pp' mp up' c /\ (pp < pp')%nat /\ (up <= up')%nat
      /\ (b = true -> us up' - us s <= 10000 + step).
Proof.
  pose proof (advancing_step_nonneg _ _ Hus) as Hstep.
  induction fuel as [|fuel IH]; intros pp up b w' Hs Hnear; [done|].
  cbn [wait_change pin_value ticks_us pin_trace pin_pos ms_clock
                   ms_pos us_clock us_pos console].
  pose proof (advancing_le _ _ _ _ Hus Hs).
  pose proof (adv_step _ _ Hus up). pose proof (adv_mono _ _ Hus up).
  destruct (Bool.eqb (pin pp) level).
  - rewrite ticks_diff_exact by lia.
    destruct (Z.gtb_spec (us up - us s) 10000).
    + intros [= <- <-]. exists (S pp), (S up). repeat split; try lia; done.
    + intros H'. destruct (IH (S pp) (S up) b w') as (pp' & up' & -> & ? & ? & Hb);
        try done; try lia.
      exists pp', up'. repeat split; try lia; done.
  - intros [= <- <-]. exists (S pp), up. repeat split; try lia; done.
Qed.

Lemma capture_durations fuel mp c :
  forall n pulses pp up pulses' w',
    capture fuel n pulses (W pp mp up c) = Some (pulses', w') ->
    exists more pp' up',
      pulses' = pulses ++ more /\ Forall (duration_ok step) more
      /\ w' = W pp' mp up' c /\ (pp <= pp')%nat /\ (up <= up')%nat.
Proof.
  pose proof (advancing_step_nonneg _ _ Hus) as Hstep.
  induction n as [|n IH]; intros pulses pp up pulses' w'.
  - cbn [capture]. intros [= <- <-]. exists [], pp, up.
    rewrite app_nil_r. repeat split; done.
  - cbn [capture pin_value ticks_us pin_trace pin_pos ms_clock
                 ms_pos us_clock us_pos console].
    pose proof (adv_step _ _ Hus up). pose proof (adv_mono _ _ Hus up).
    destruct (wait_change fuel (pin pp) (us up mod TICKS_PERIOD)
                          (W (S pp) mp (S up) c)) as [[b w3]|] eqn:Hw; [|done].
    assert (up <= S up)%nat as Hs1 by lia.
    assert (us (S up) - us up <= 10000 + step) as Hs2 by lia.
    destruct (wait_change_elapsed _ _ _ _ _ _ _ _ _ Hs1 Hs2 Hw)
      as (pp1 & up1 & -> & Hpp1 & Hup1 & Hb).
    destruct b.
    + specialize (Hb eq_refl).
      cbn [ticks_us pin_trace pin_pos ms_clock ms_pos us_clock us_pos console].
      assert (up <= up1)%nat as Hle by lia.
      pose proof (advancing_le _ _ _ _ Hus Hle).
      rewrite ticks_diff_exact by lia.
      intros Hc.
      destruct (IH _ _ _ _ _ Hc) as (more & pp2 & up2 & -> & Hmore & -> & ? & ?).
      exists ((us up1 - us up) :: more), pp2, up2.
      rewrite <- app_assoc. repeat split; try done; try lia.
      constructor; [|done]. unfold duration_ok. lia.
    + intros [= <- <-]. exists [], pp1, up1. rewrite app_nil_r.
      repeat split; try done; lia.
Qed.

End CaptureMore.

Section CaptureFrame.

Variables (pin : nat -> bool) (ms us : nat -> Z).

#[local] Abbreviation W pp mp up c := (World pin pp ms mp us up c).

Lemma wait_change_shape fuel level t0 mp c :
  forall pp up b w',
    wait_change fuel level t0 (W pp mp up c) = Some (b, w') ->
    exists pp' up', w' = W pp' mp up' c /\ (pp < pp')%nat /\ (up <= up')%nat.
Proof.
  induction fuel as [|fuel IH]; intros pp up b w'; [done|].
  cbn [wait_change pin_value ticks_us pin_trace pin_pos ms_clock
                   ms_pos us_clock us_pos console].
  destruct (Bool.eqb (pin pp) level).
  - destruct (_ >? _).
    + intros [= <- <-]. exists (S pp), (S up). repeat split; lia.
    + intros H. destruct (IH _ _ _ _ H) as (pp' & up' & -> & ? & ?).
      exists pp', up'. repeat split; lia.
  - intros [= <- <-]. exists (S pp), up. repeat split; lia.
Qed.

Lemma capture_shape fuel mp c :
  forall n pulses pp up pulses' w',
    capture fuel n pulses (W pp mp up c) = Some (pulses', w') ->
    exists pp' up', w' = W pp' mp up' c /\ (pp <= pp')%nat /\ (up <= up')%nat.
Proof.
  induction n as [|n IH]; intros pulses pp up pulses' w'.
  - cbn [capture]. intros [= <- <-]. exists pp, up. repeat split; lia.
  - cbn [capture pin_value ticks_us pin_trace pin_pos ms_clock
                 ms_pos us_clock us_pos console].
    destruct (wait_change _ _ _ _) as [[b w3]|] eqn:Hw; [|done].
    destruct (wait_change_shape _ _ _ _ _ _ _ _ _ Hw) as (pp1 & up1 & -> & ? & ?).
    destruct b.
    + cbn [ticks_us pin_trace pin_pos ms_clock ms_pos us_clock us_pos console].
      intros Hc. destruct (IH _ _ _ _ _ Hc) as (pp2 & up2 & -> & ? & ?).
      exists pp2, up2. repeat split; lia.
    + intros [= <- <-]. exists pp1, up1. repeat split; lia.
Qed.

(** [read_pulses] prints nothing: it only moves the three positions
    forward, and it reads the line and the millisecond counter at least
    once each. *)
Lemma read_pulses_shape fuel timeout_ms c :
  forall pp mp up pulses w',
    read_pulses fuel timeout_ms (W pp mp up c) = Some (pulses, w') ->
    exists pp' mp' up',
      w' = W pp' mp' up' c /\ (pp < pp')%nat /\ (mp < mp')%nat /\ (up <= up')%nat.
Proof.
  intros pp mp up pulses w'. unfold read_pulses.
  cbn [ticks_ms pin_trace pin_pos ms_clock ms_pos us_clock us_pos console].
  destruct (wait_low _ _ _ _) as [[b w2]|] eqn:Hw; [|done].
  destruct (wait_low_shape _ _ _ _ _ _ _ _ _ _ _ _ Hw) as (pp1 & mp1 & -> & ? & ?).
  destruct b.
  - intros Hc. destruct (capture_shape _ _ _ _ _ _ _ _ _ Hc) as (pp2 & up2 & -> & ? & ?).
    exists pp2, mp1, up2. repeat split; lia.
  - intros [= <- <-]. exists pp1, mp1, up. repeat split; lia.
Qed.

End CaptureFrame.

Lemma read_pulses_console fuel timeout_ms w pulses w' :
  read_pulses fuel timeout_ms w = Some (pulses, w') -> console w' = console w.
Proof.
  destruct w as [pin pp ms mp us up c]. intros H.
  by destruct (read_pulses_shape _ _ _ _ _ _ _ _ _ _ _ H) as (? & ? & ? & -> & _).
Qed.

Section CaptureIdle.

Variables (pin : nat -> bool) (ms us : nat -> Z) (step : Z).
Hypothesis Hms : advancing step ms.

#[local] Abbreviation W pp mp up c := (World pin pp ms mp us up c).

(** On a line that stays high the wait gives up at the first reading
    that is more than [timeout_ms] after the one at [s]. *)
Lemma wait_low_gives_up fuel timeout_ms (s : nat) up c :
  0 <= timeout_ms -> timeout_ms + step < TICKS_HALF ->
  forall pp mp b w',
    (s <= mp)%nat -> ms mp - ms s <= timeout_ms + step ->
    (forall n, (pp <= n)%nat -> pin n = true) ->
    wait_low fuel timeout_ms (ms s mod TICKS_PERIOD) (W pp mp up c) = Some (b, w') ->
    b = false
    /\ exists pp' mp',
         w' = W pp' (S mp') up c /\ (mp <= mp')%nat
         /\ timeout_ms < ms mp' - ms s <= timeout_ms + step.
Proof.
  intros Ht Hhalf. pose proof (advancing_step_nonneg _ _ Hms) as Hstep.
  induction fuel as [|fuel IH]; intros pp mp b w' Hs Hnear Hhigh; [done|].
  cbn [wait_low pin_value ticks_ms pin_trace pin_pos ms_clock
                ms_pos us_clock us_pos console].
  rewrite Hhigh by lia.
  pose proof (advancing_le _ _ _ _ Hms Hs).
  pose proof (adv_step _ _ Hms mp). pose proof (adv_mono _ _ Hms mp).
  rewrite ticks_diff_exact by lia.
  destruct (Z.gtb_spec (ms mp - ms s) timeout_ms).
  - intros [= <- <-]. split; [done|]. exists (S pp), mp. repeat split; lia.
  - intros H'.
    destruct (IH (S pp) (S mp) b w') as (-> & pp' & mp' & -> & ? & ?);
      try done; try lia.
    { intros n Hn. apply Hhigh. lia. }
    split; [done|]. exists pp', mp'. repeat split; lia.
Qed.

End CaptureIdle.

Section CaptureTheorems.

(** X6: Every duration that [read_pulses] records is the time between two
    readings of the microsecond counter, with no wrap: with a counter
    that advances by at most [step] per reading, it is at least 0 and
    at most [10000 + step]. *)
Theorem read_pulses_durations (step timeout_ms : Z) (w : world) :
  advancing step (us_clock w) -> 10000 + step < TICKS_HALF ->
  forall fuel pulses w',
    read_pulses fuel timeout_ms w = Some (pulses, w') ->
    Forall (duration_ok step) pulses.
Proof.
  intros Hus Hhalf fuel pulses w'. destruct w as [pin pp ms mp us up c].
  cbn [us_clock] in Hus. unfold read_pulses.
  cbn [ticks_ms pin_trace pin_pos ms_clock ms_pos us_clock us_pos console].
  destruct (wait_low _ _ _ _) as [[b w2]|] eqn:Hw; [|done].
  destruct (wait_low_shape _ _ _ _ _ _ _ _ _ _ _ _ Hw) as (pp1 & mp1 & -> & _ & _).
  destruct b.
  - intros Hc.
    destruct (capture_durations pin ms us step Hus Hhalf _ _ _ _ _ _ _ _ _ Hc)
      as (more & _ & _ & -> & Hmore & _). done.
  - intros [= <- _]. constructor.
Qed.

(** X7: When the line stays high [read_pulses] returns the empty list, and
    it does so at the first reading of the millisecond counter that is
    more than [timeout_ms] after its first one: never before the
    timeout, and at most [step] after it.  The microsecond counter is
    not read and nothing is printed. *)
Theorem read_pulses_idle (step timeout_ms : Z) (w : world) :
  advancing step (ms_clock w) ->
  0 <= timeout_ms -> timeout_ms + step < TICKS_HALF ->
  (forall n, (pin_pos w <= n)%nat -> pin_trace w n = true) ->
  (exists fuel w', read_pulses fuel timeout_ms w = Some ([], w'))
  /\ forall fuel pulses w',
       read_pulses fuel timeout_ms w = Some (pulses, w') ->
       pulses = []
       /\ us_pos w' = us_pos w /\ console w' = console w
       /\ (ms_pos w + 2 <= ms_pos w')%nat
       /\ timeout_ms
          < ms_clock w (ms_pos w' - 1)%nat - ms_clock w (ms_pos w)
          <= timeout_ms + step.
Proof.
  intros Hms Ht Hhalf Hhigh. destruct w as [pin pp ms mp us up c].
  cbn [ms_clock pin_pos pin_trace] in Hms, Hhigh.
  pose proof (advancing_step_nonneg _ _ Hms) as Hstep.
  pose proof (adv_step _ _ Hms mp). pose proof (adv_mono _ _ Hms mp).
  assert (forall fuel pulses w',
            read_pulses fuel timeout_ms (World pin pp ms mp us up c)
            = Some (pulses, w') ->
            pulses = []
            /\ exists pp' mp',
                 w' = World pin pp' ms (S mp') us up c /\ (S mp <= mp')%nat
                 /\ timeout_ms < ms mp' - ms mp <= timeout_ms + step) as Hret.
  { intros fuel pulses w'. unfold read_pulses.
    cbn [ticks_ms pin_trace pin_pos ms_clock ms_pos us_clock us_pos console].
    destruct (wait_low _ _ _ _) as [[b w2]|] eqn:Hw; [|done].
    destruct (wait_low_gives_up pin ms us step Hms fuel timeout_ms mp up c
                Ht Hhalf pp (S mp) b w2) as (-> & pp' & mp' & -> & ? & ?);
      try done; try lia.
    intros [= <- <-]. split; [done|]. by exists pp', mp'. }
  split.
  - destruct (wait_low_terminates pin ms us step Hms timeout_ms mp up c Ht Hhalf
                                  pp (S mp))
      as (fuel & b & pp1 & mp1 & Hw & _); try lia.
    assert (mp <= S mp)%nat as Hs1 by lia.
    assert (ms (S mp) - ms mp <= timeout_ms + step) as Hs2 by lia.
    destruct (wait_low_gives_up pin ms us step Hms fuel timeout_ms mp up c
                Ht Hhalf pp (S mp) b _ Hs1 Hs2 Hhigh Hw) as (-> & _).
    exists fuel. eexists. unfold read_pulses.
    cbn [ticks_ms pin_trace pin_pos ms_clock ms_pos us_clock us_pos console].
    by rewrite Hw.
  - intros fuel pulses w' Hr.
    destruct (Hret _ _ _ Hr) as (-> & pp' & mp' & -> & ? & ?).
    cbn [us_pos console ms_pos ms_clock].
    replace (S mp' - 1)%nat with mp' by lia.
    repeat split; try done; lia.
Qed.

End CaptureTheorems.

(** * Dispatch: [process_ir_signal] outside learning mode *)

Section Dispatch.

Implicit Types (d : Debug.decoder) (code key pulses : list Z) (name : string).

Lemma pin_events_print evs w :
  pin_events (print evs w) = pin_events w ++ List.filter is_pin_event evs.
Proof. unfold pin_events. rewrite console_print. apply List.filter_app. Qed.

Lemma collect_bits_no_pin debug pulses (idx : list nat) :
  forall acc r evs,
    Debug.collect_bits debug pulses idx acc = Ok (r, evs) ->
    List.filter is_pin_event evs = [].
Proof.
  induction idx as [|i idx IH]; intros acc r evs; cbn [Debug.collect_bits].
  - by intros [= _ <-].
  - destruct (length pulses <=? i + 1)%nat; [by intros [= _ <-]|].
    destruct (getitem pulses (i + 1)) as [s|e]; [|done].
    rewrite bind_ok.
    destruct ((400 <? s) && (s <? 700)); [apply IH|].
    destruct ((1500 <? s) && (s <? 1800)); [apply IH|].
    intros [= _ <-]. by destruct debug.
Qed.

Lemma decode_nec_no_pin debug pulses r evs :
  Debug.decode_nec debug pulses = Ok (r, evs) ->
  List.filter is_pin_event evs = [].
Proof.
  unfold Debug.decode_nec.
  destruct (length pulses <? 66)%nat; [intros [= _ <-]; by destruct debug|].
  destruct (Debug.header_ok pulses) as [h|e]; [|done]. rewrite bind_ok.
  destruct h; cbn [negb].
  - destruct (Debug.collect_bits _ _ _ _) as [[r0 evs0]|e] eqn:Hc; [|done].
    rewrite bind_ok. apply collect_bits_no_pin in Hc.
    destruct r0 as [bits|]; [|by intros [= _ <-]].
    destruct (length bits <? 32)%nat; intros [= _ <-]; [|done].
    rewrite List.filter_app, Hc. by destruct debug.
  - destruct debug; [|by intros [= _ <-]].
    destruct (getitem pulses 0) as [p0|e]; [|done]. rewrite bind_ok.
    destruct (getitem pulses 1) as [p1|e]; [|done]. rewrite bind_ok.
    by intros [= _ <-].
Qed.

Lemma print_debug_info_no_pin pulses (r : option (list Z)) :
  List.filter is_pin_event (Debug.print_debug_info pulses r) = [].
Proof.
  unfold Debug.print_debug_info. rewrite !List.filter_app.
  destruct pulses as [|p0 [|p1 pulses]], r as [[|b c]|];
    cbn [List.filter is_pin_event app];
    by destruct (10 <? _)%nat.
Qed.

(** The world after the decoder's own prints has the pin events of the
    world after the capture. *)
Lemma pin_events_debug_prints d pulses (r : option (list Z)) evs w1 :
  List.filter is_pin_event evs = [] ->
  pin_events (if Debug.debug_mode d
              then print (Debug.print_debug_info pulses r) (print evs w1)
              else print evs w1)
  = pin_events w1.
Proof.
  intros Hev. destruct (Debug.debug_mode d);
    rewrite ?pin_events_print, ?print_debug_info_no_pin, Hev, ?app_nil_r; done.
Qed.

Lemma pin_events_read fuel timeout_ms w pulses w1 :
  read_pulses fuel timeout_ms w = Some (pulses, w1) -> pin_events w1 = pin_events w.
Proof. intros H. unfold pin_events. by rewrite (read_pulses_console _ _ _ _ _ H). Qed.

Lemma decode_nec_debug_main debug pulses r evs :
  Debug.decode_nec debug pulses = Ok (r, evs) -> Main.decode_nec pulses = Ok r.
Proof.
  destruct (decode_nec_debug_closed debug pulses) as [evs' ->].
  intros [= <- _]. apply decode_nec_main_closed.
Qed.

Lemma pin_events_trigger d name t w :
  pin_events (Debug.trigger_output d name t w)
  = pin_events w ++ match Debug.outputs d !! name with
                    | Some _ => pulse_of name
                    | None => []
                    end.
Proof.
  unfold Debug.trigger_output. destruct (Debug.outputs d !! name).
  - unfold sleep_ms. rewrite !pin_events_print. cbn [List.filter is_pin_event].
    by rewrite app_nil_r, <- app_assoc.
  - by rewrite app_nil_r.
Qed.

(** The cases of a cycle outside learning mode. *)
Lemma process_idle_cases fuel d w r d' w' :
  Debug.learning_mode d = false ->
  Debug.process_ir_signal fuel d w = Some (r, d', w') ->
  d' = d
  /\ exists pulses w1,
       read_pulses fuel 100 w = Some (pulses, w1)
       /\ match Main.decode_nec pulses with
          | Ok (Some code) =>
            match Debug.lookup d code with
            | Some name =>
              r = Ok (Some name)
              /\ pin_events w'
                 = pin_events w ++ match Debug.outputs d !! name with
                                   | Some _ => pulse_of name
                                   | None => []
                                   end
            | None =>
              r = Ok (Some "UNKNOWN"%string)
              /\ pin_events w' = pin_events w
              /\ last (console w') = Some (EvUnknownCode code)
            end
          | _ => r = Ok None /\ pin_events w' = pin_events w
          end.
Proof.
  intros Hmode. unfold Debug.process_ir_signal.
  destruct (read_pulses fuel 100 w) as [[pulses w1]|] eqn:Hr; [|done].
  pose proof (pin_events_read _ _ _ _ _ Hr) as Hpin.
  destruct pulses as [|p pulses].
  { intros [= <- <- <-]. split; [done|]. exists [], w1. split; [done|].
    by rewrite decode_nec_main_closed. }
  destruct (Debug.decode_nec _ _) as [[code evs]|e] eqn:Hd.
  2:{ destruct (decode_nec_debug_closed (Debug.debug_mode d) (p :: pulses))
        as [evs Hd']. congruence. }
  pose proof (decode_nec_no_pin _ _ _ _ Hd) as Hev.
  pose proof (pin_events_debug_prints d (p :: pulses) code evs w1 Hev) as Hpin'.
  pose proof (decode_nec_debug_main _ _ _ _ Hd) as Hm.
  destruct code as [[|b c]|].
  - assert (decode_fun (p :: pulses) = Some []) as Hf.
    { rewrite decode_nec_main_closed in Hm. congruence. }
    by destruct (decode_fun_code _ _ Hf) as [? _].
  - rewrite Hmode.
    destruct (Debug.lookup d (b :: c)) as [name|] eqn:Hl.
    + intros [= <- <- <-]. split; [done|]. exists (p :: pulses), w1.
      split; [done|]. rewrite Hm, Hl. split; [done|].
      rewrite pin_events_trigger, pin_events_print.
      cbn [List.filter is_pin_event]. by rewrite app_nil_r, Hpin', Hpin.
    + intros [= <- <- <-]. split; [done|]. exists (p :: pulses), w1.
      split; [done|]. rewrite Hm, Hl. split; [done|]. split.
      * rewrite pin_events_print. cbn [List.filter is_pin_event].
        by rewrite app_nil_r, Hpin', Hpin.
      * rewrite console_print. apply last_snoc.
  - intros [= <- <- <-]. split; [done|]. exists (p :: pulses), w1.
    split; [done|]. rewrite Hm. split; [done|]. by rewrite Hpin', Hpin.
Qed.

Lemma process_returns fuel d w pulses w1 :
  read_pulses fuel 100 w = Some (pulses, w1) ->
  exists r d' w', Debug.process_ir_signal fuel d w = Some (r, d', w').
Proof.
  intros Hr. unfold Debug.process_ir_signal. rewrite Hr.
  destruct pulses as [|p pulses]; [by repeat eexists|].
  destruct (Debug.decode_nec _ _) as [[code evs]|e]; [|by repeat eexists].
  destruct code as [[|b c]|]; try by repeat eexists.
  destruct (Debug.learning_mode d); [by repeat eexists|].
  destruct (Debug.lookup d (b :: c)); by repeat eexists.
Qed.

(** X8: What one cycle does outside learning mode, in terms of the capture,
    of the decoder of [main.py] and of the table: the decoder object is
    never written; nothing decoded gives [None] and drives nothing; an
    unbound code gives ["UNKNOWN"] and drives nothing; a bound code
    gives its name and drives that name's pin, on then off, when the
    name has a pin. *)
Theorem dispatch_cycle fuel d w pulses w1 :
  Debug.learning_mode d = false ->
  read_pulses fuel 100 w = Some (pulses, w1) ->
  exists r w',
    Debug.process_ir_signal fuel d w = Some (r, d, w')
    /\ match Main.decode_nec pulses with
       | Ok (Some code) =>
         match Debug.lookup d code with
         | Some name =>
           r = Ok (Some name)
           /\ pin_events w'
              = pin_events w ++ match Debug.outputs d !! name with
                                | Some _ => pulse_of name
                                | None => []
                                end
         | None =>
           r = Ok (Some "UNKNOWN"%string)
           /\ pin_events w' = pin_events w
           /\ last (console w') = Some (EvUnknownCode code)
         end
       | _ => r = Ok None /\ pin_events w' = pin_events w
       end.
Proof.
  intros Hmode Hr.
  destruct (process_returns fuel d w pulses w1 Hr) as (r & d' & w' & Hp).
  destruct (process_idle_cases _ _ _ _ _ _ Hmode Hp)
    as (-> & pulses' & w1' & Hr' & Hcases).
  rewrite Hr in Hr'. injection Hr' as <- <-.
  by exists r, w'.
Qed.

End Dispatch.

(** * Learning: what [learn_button] can do *)

Section LearnMore.

Implicit Types (d : Debug.decoder) (code key pulses : list Z) (name : string).

Lemma process_learning_cases fuel d w r d' w' :
  Debug.learning_mode d = true ->
  Debug.process_ir_signal fuel d w = Some (r, d', w') ->
  pin_events w' = pin_events w /\ (exists v, r = Ok v) /\ learned d d' w'.
Proof.
  intros Hmode. unfold Debug.process_ir_signal.
  destruct (read_pulses fuel 100 w) as [[pulses w1]|] eqn:Hr; [|done].
  pose proof (pin_events_read _ _ _ _ _ Hr) as Hpin.
  destruct pulses as [|p pulses].
  { intros [= <- <- <-]. split; [done|]. split; [by eexists|]. by left. }
  destruct (Debug.decode_nec _ _) as [[code evs]|e] eqn:Hd.
  2:{ destruct (decode_nec_debug_closed (Debug.debug_mode d) (p :: pulses))
        as [evs Hd']. congruence. }
  pose proof (decode_nec_no_pin _ _ _ _ Hd) as Hev.
  pose proof (pin_events_debug_prints d (p :: pulses) code evs w1 Hev) as Hpin'.
  pose proof (decode_nec_debug_main _ _ _ _ Hd) as Hm.
  rewrite decode_nec_main_closed in Hm. injection Hm as Hm.
  rewrite Hmode.
  destruct code as [[|b c]|]; intros [= <- <- <-].
  - split; [by rewrite Hpin', Hpin|]. split; [by eexists|]. by left.
  - split.
    { rewrite pin_events_print. cbn [List.filter is_pin_event].
      by rewrite app_nil_r, Hpin', Hpin. }
    split; [by eexists|]. right. exists (b :: c).
    destruct (decode_fun_code _ _ Hm) as [Hlen _].
    split; [done|]. split; [done|].
    rewrite console_print. apply elem_of_app. right. by apply list_elem_of_singleton.
  - split; [by rewrite Hpin', Hpin|]. split; [by eexists|]. by left.
Qed.

Lemma learn_loop_cases k fuel start_time :
  forall d w r d' w',
    Debug.learn_loop k fuel start_time d w = Some (r, d', w') ->
    Debug.learning_mode d = true ->
    pin_events w' = pin_events w /\ r = Ok tt /\ learned d d' w'.
Proof.
  induction k as [|k IH]; intros d w r d' w'; [done|].
  cbn [Debug.learn_loop]. intros H Hmode. rewrite Hmode in H.
  assert (pin_events (snd (ticks_ms w)) = pin_events w) as Hpin0 by done.
  destruct (ticks_ms w) as [now w1]. cbn [snd] in Hpin0.
  destruct (_ <? _).
  2:{ injection H as <- <- <-. split; [done|]. split; [done|]. by left. }
  destruct (Debug.process_ir_signal fuel d w1) as [[[r1 d2] w2]|] eqn:Hp; [|done].
  destruct (process_learning_cases _ _ _ _ _ _ Hmode Hp)
    as (Hpin & [v ->] & Hlearned).
  unfold sleep_ms in H.
  destruct Hlearned as [-> | (code & Hlen & -> & Hsaved)].
  - destruct (IH _ _ _ _ _ H Hmode) as (Hpin' & -> & Hl).
    split; [congruence|]. split; [done|]. exact Hl.
  - destruct k as [|k]; [done|]. cbn [Debug.learn_loop] in H.
    cbn [Debug.set_learning_mode Debug.learning_mode] in H.
    injection H as <- <- <-.
    split; [congruence|]. split; [done|]. right. by exists code.
Qed.

(** X9: [learn_button] never raises and never drives an output; it returns
    [False] with the table as it was, or [True] after binding exactly
    one code of four bytes to the requested name, which then has a pin,
    with that code printed and learning mode left. *)
Theorem learn_button_outcomes fuel d name w r d' w' :
  Debug.learn_button fuel d name w = Some (r, d', w') ->
  pin_events w' = pin_events w
  /\ Debug.outputs d' = Debug.outputs d
  /\ ((r = Ok false /\ Debug.button_codes d' = Debug.button_codes d)
      \/ (r = Ok true
          /\ is_Some (Debug.outputs d !! name)
          /\ Debug.learning_mode d' = false
          /\ exists code,
               length code = 4%nat
               /\ Debug.button_codes d' = <[code := name]> (Debug.button_codes d)
               /\ EvSaved code name ∈ console w')).
Proof.
  unfold Debug.learn_button, Debug.arm.
  destruct (Debug.outputs d !! name) as [pin|] eqn:Hout.
  2:{ intros [= <- <- <-]. split; [by rewrite pin_events_print, app_nil_r|].
      split; [done|]. by left. }
  set (w1 := print [EvLearnStart name] w).
  assert (pin_events (snd (ticks_ms w1)) = pin_events w) as Hpin0.
  { unfold w1, pin_events. cbn. rewrite List.filter_app. cbn. by rewrite app_nil_r. }
  destruct (ticks_ms w1) as [start_time w2]. cbn [snd] in Hpin0.
  destruct (Debug.learn_loop _ _ _ _ _) as [[[r0 d2] w3]|] eqn:Hl; [|done].
  destruct (learn_loop_cases _ _ _ _ _ _ _ _ Hl eq_refl) as (Hpin & -> & Hlearned).
  destruct Hlearned as [-> | (code & Hlen & -> & Hsaved)].
  - cbn. intros [= <- <- <-]. split.
    { by rewrite pin_events_print, app_nil_r, Hpin, Hpin0. }
    split; [done|]. by left.
  - cbn. intros [= <- <- <-]. split; [congruence|]. split; [done|].
    right. split; [done|]. split; [by eexists|]. split; [done|].
    by exists code.
Qed.

End LearnMore.

(** * The table and the pins *)

Section NamesHavePins.

Implicit Types (d : Debug.decoder) (code key pulses : list Z) (name : string).

Lemma names_have_pins_init : names_have_pins Debug.init.
Proof.
  intros key name. unfold Debug.lookup, Debug.init, Debug.default_codes.
  cbn [Debug.button_codes Debug.outputs]. intros H.
  repeat (apply lookup_insert_Some in H as [[_ <-] | [_ H]];
          [eexists; vm_compute; reflexivity|]).
  by rewrite lookup_empty in H.
Qed.

Lemma names_have_pins_ext d d' :
  Debug.outputs d' = Debug.outputs d ->
  Debug.button_codes d' = Debug.button_codes d ->
  names_have_pins d -> names_have_pins d'.
Proof.
  intros Ho Hc Hinv key name. unfold Debug.lookup. rewrite Ho, Hc. apply Hinv.
Qed.

Lemma names_have_pins_learned d d' w' :
  names_have_pins d ->
  is_Some (Debug.outputs d !! Debug.learning_button d) ->
  learned d d' w' -> names_have_pins d'.
Proof.
  intros Hinv Hbutton [-> | (code & _ & -> & _)]; [done|].
  intros key name. unfold Debug.lookup. cbn. intros H.
  apply lookup_insert_Some in H as [[_ <-] | [_ H]]; [done|].
  by apply (Hinv key).
Qed.

Lemma process_idle_decoder fuel d w r d' w' :
  Debug.learning_mode d = false ->
  Debug.process_ir_signal fuel d w = Some (r, d', w') -> d' = d.
Proof.
  intros Hmode. unfold Debug.process_ir_signal.
  destruct (read_pulses fuel 100 w) as [[pulses w1]|]; [|done].
  destruct pulses as [|p pulses]; [by intros [= _ <- _]|].
  destruct (Debug.decode_nec _ _) as [[code evs]|e]; [|by intros [= _ <- _]].
  rewrite Hmode.
  destruct code as [[|b c]|]; try by intros [= _ <- _].
  by destruct (Debug.lookup d (b :: c)); intros [= _ <- _].
Qed.

(** X10: Every name in the table has an output pin: this holds of the
    decoder that [__init__] builds with its default pins, and
    [learn_button] and [process_ir_signal] keep it, because learning is
    armed only for a name that has a pin. *)
Theorem names_have_pins_kept :
  names_have_pins Debug.init
  /\ (forall fuel d name w r d' w',
        names_have_pins d ->
        Debug.learn_button fuel d name w = Some (r, d', w') ->
        names_have_pins d')
  /\ (forall fuel d w r d' w',
        names_have_pins d ->
        (Debug.learning_mode d = true ->
         is_Some (Debug.outputs d !! Debug.learning_button d)) ->
        Debug.process_ir_signal fuel d w = Some (r, d', w') ->
        names_have_pins d').
Proof.
  split; [exact names_have_pins_init|]. split.
  - intros fuel d name w r d' w' Hinv.
    unfold Debug.learn_button, Debug.arm.
    destruct (Debug.outputs d !! name) as [pin|] eqn:Hout;
      [|by intros [= _ <- _]].
    destruct (ticks_ms _) as [start_time w2].
    destruct (Debug.learn_loop _ _ _ _ _) as [[[r0 d2] w3]|] eqn:Hl; [|done].
    destruct (learn_loop_cases _ _ _ _ _ _ _ _ Hl eq_refl) as (_ & -> & Hlearned).
    assert (names_have_pins d2) as Hinv2.
    { eapply names_have_pins_learned; [| |exact Hlearned].
      - by apply (names_have_pins_ext d).
      - cbn. by rewrite Hout. }
    destruct (Debug.learning_mode d2); intros [= _ <- _]; [|done].
    by apply (names_have_pins_ext d2).
  - intros fuel d w r d' w' Hinv Hbutton Hp.
    destruct (Debug.learning_mode d) eqn:Hmode.
    + destruct (process_learning_cases _ _ _ _ _ _ Hmode Hp) as (_ & _ & Hl).
      eapply names_have_pins_learned; [exact Hinv|by apply Hbutton|exact Hl].
    + by rewrite (process_idle_decoder _ _ _ _ _ _ Hmode Hp).
Qed.

End NamesHavePins.

(** * Learning, then dispatch; cycles in sequence *)

Section Compose.

Implicit Types (d : Debug.decoder) (code key pulses : list Z) (name : string).

(** X11: A button that has been learned is recognised afterwards: when
    [learn_button] has returned [True], the code it printed is bound to
    the name, and any later cycle whose capture decodes to that code
    returns the name and drives the name's pin, on then off. *)
Theorem learned_code_recognised fuel d name w d' w' :
  Debug.learn_button fuel d name w = Some (Ok true, d', w') ->
  exists code,
    EvSaved code name ∈ console w'
    /\ Debug.lookup d' code = Some name
    /\ forall fuel2 w2 pulses w3,
         read_pulses fuel2 100 w2 = Some (pulses, w3) ->
         Main.decode_nec pulses = Ok (Some code) ->
         exists w4,
           Debug.process_ir_signal fuel2 d' w2 = Some (Ok (Some name), d', w4)
           /\ pin_events w4 = pin_events w2 ++ pulse_of name.
Proof.
  unfold Debug.learn_button, Debug.arm.
  destruct (Debug.outputs d !! name) as [pin|] eqn:Hout; [|done].
  destruct (ticks_ms _) as [start_time w2].
  destruct (Debug.learn_loop _ _ _ _ _) as [[[r0 d2] w3]|] eqn:Hl; [|done].
  destruct (learn_loop_cases _ _ _ _ _ _ _ _ Hl eq_refl) as (_ & -> & Hlearned).
  destruct Hlearned as [-> | (code & Hlen & -> & Hsaved)]; [done|].
  cbn [Debug.set_learning_mode Debug.learning_mode Debug.set_learning
       Debug.learning_button] in *.
  intros [= <- <-]. exists code.
  split; [done|]. split; [unfold Debug.lookup; cbn; apply lookup_insert_eq|].
  intros fuel2 v2 pulses v3 Hr Hdec.
  set (d' := Debug.set_learning_mode _ _).
  destruct (process_returns fuel2 d' v2 pulses v3 Hr) as (r & d'' & v4 & Hp).
  assert (Debug.learning_mode d' = false) as Hmode by done.
  destruct (process_idle_cases _ _ _ _ _ _ Hmode Hp)
    as (-> & pulses' & v3' & Hr' & Hcases).
  rewrite Hr in Hr'. injection Hr' as <- <-. rewrite Hdec in Hcases.
  assert (Debug.lookup d' code = Some name) as Hlook
      by (unfold Debug.lookup; cbn; apply lookup_insert_eq).
  rewrite Hlook in Hcases. destruct Hcases as [-> Hpins].
  exists v4. split; [done|]. rewrite Hpins. cbn. by rewrite Hout.
Qed.

(** X12: Any number of cycles of [run_continuous] outside learning mode
    leave the decoder object as it was and raise nothing; [n] cycles
    drive at most [n] outputs, one after the other, each switched on
    and then off, and each the pin of a name that the table holds. *)
Theorem continuous_cycles_outcome n fuel d w r d' w' :
  Debug.learning_mode d = false ->
  DebugRun.continuous_cycles n fuel d w = Some (r, d', w') ->
  r = Ok tt /\ d' = d
  /\ exists names,
       (length names <= n)%nat
       /\ Forall (fun name => is_Some (Debug.outputs d !! name)
                              /\ exists key, Debug.lookup d key = Some name)
                 names
       /\ pin_events w' = pin_events w ++ concat (map pulse_of names).
Proof.
  intros Hmode. revert w.
  induction n as [|n IH]; intros w; cbn [DebugRun.continuous_cycles].
  - intros [= <- <- <-]. split; [done|]. split; [done|].
    exists []. split; [done|]. split; [constructor|]. by rewrite app_nil_r.
  - destruct (Debug.process_ir_signal fuel d w) as [[[r1 d1] w1]|] eqn:Hp; [|done].
    destruct (process_idle_cases _ _ _ _ _ _ Hmode Hp)
      as (-> & pulses & w0 & Hr & Hcases).
    assert ((exists v, r1 = Ok v)
            /\ (pin_events w1 = pin_events w
                \/ exists name,
                     (is_Some (Debug.outputs d !! name)
                      /\ exists key, Debug.lookup d key = Some name)
                     /\ pin_events w1 = pin_events w ++ pulse_of name))
      as [[v ->] Hpins].
    { destruct (Main.decode_nec pulses) as [[code|]|e].
      - destruct (Debug.lookup d code) as [name|] eqn:Hl.
        + destruct Hcases as [-> Hpins]. split; [by eexists|].
          destruct (Debug.outputs d !! name) as [pin|] eqn:Hout.
          * right. exists name. split; [|done]. split; [by rewrite Hout|].
            by exists code.
          * left. by rewrite Hpins, app_nil_r.
        + destruct Hcases as (-> & Hpins & _). split; [by eexists|by left].
      - destruct Hcases as [-> Hpins]. split; [by eexists|by left].
      - destruct Hcases as [-> Hpins]. split; [by eexists|by left]. }
    unfold sleep_ms. intros H.
    destruct (IH _ H) as (-> & -> & names & Hlen & Hnames & Hrest).
    split; [done|]. split; [done|].
    destruct Hpins as [Hsame | (name & Hname & Hone)].
    + exists names. split; [lia|]. split; [done|]. by rewrite Hrest, Hsame.
    + exists (name :: names). split; [simpl; lia|]. split; [by constructor|].
      rewrite Hrest, Hone. cbn [map concat]. by rewrite <- app_assoc.
Qed.

End Compose.

(** * [main.py]: the main loop *)

Section MainLoopFacts.

Implicit Types (code key pulses : list Z) (name : string).

Lemma main_tables_have_pins key name :
  MainLoop.button_codes !! key = Some name -> is_Some (MainLoop.outputs !! name).
Proof.
  unfold MainLoop.button_codes. intros H.
  repeat (apply lookup_insert_Some in H as [[_ <-] | [_ H]];
          [eexists; vm_compute; reflexivity|]).
  by rewrite lookup_empty in H.
Qed.

(** The cases of one iteration. *)
Lemma cycle_cases outs codes fuel w f w' :
  MainLoop.cycle outs codes fuel w = Some (f, w') ->
  exists pulses w1,
    read_pulses fuel 100 w = Some (pulses, w1)
    /\ pin_pos w' = pin_pos w1 /\ ms_pos w' = ms_pos w1 /\ us_pos w' = us_pos w1
    /\ match Main.decode_nec pulses with
       | Ok (Some code) =>
         match codes !! code with
         | Some name =>
           match outs !! name with
           | Some _ => f = None /\ console w' = console w ++ press name
           | None => f = Some (MainLoop.KeyError name)
                     /\ console w' = console w ++ [EvDetected name]
           end
         | None => f = None /\ console w' = console w
         end
       | _ => f = None /\ console w' = console w
       end.
Proof.
  unfold MainLoop.cycle.
  destruct (read_pulses fuel 100 w) as [[pulses w1]|] eqn:Hr; [|done].
  pose proof (read_pulses_console _ _ _ _ _ Hr) as Hc.
  destruct pulses as [|p pulses].
  { intros [= <- <-]. exists [], w1. rewrite decode_nec_main_closed. by cbn. }
  pose proof (decode_nec_main_closed (p :: pulses)) as Hm.
  destruct (Main.decode_nec (p :: pulses)) as [[[|b c]|]|e] eqn:Hd; [| | |done].
  - injection Hm as Hm. symmetry in Hm. by destruct (decode_fun_code _ _ Hm) as [? _].
  - destruct (codes !! (b :: c)) as [name|] eqn:Hl.
    + destruct (outs !! name) as [pin|] eqn:Ho; intros [= <- <-];
        exists (p :: pulses), w1; rewrite Hd, Hl, Ho;
        unfold sleep_ms; rewrite !console_print, Hc, <- ?app_assoc; by cbn.
    + intros [= <- <-]. exists (p :: pulses), w1. by rewrite Hd, Hl.
  - intros [= <- <-]. exists (p :: pulses), w1. by rewrite Hd.
Qed.

Lemma cycle_returns outs codes fuel w pulses w1 :
  read_pulses fuel 100 w = Some (pulses, w1) ->
  exists f w', MainLoop.cycle outs codes fuel w = Some (f, w').
Proof.
  intros Hr. unfold MainLoop.cycle. rewrite Hr.
  destruct pulses as [|p pulses]; [by repeat eexists|].
  destruct (Main.decode_nec _) as [[[|b c]|]|e]; try by repeat eexists.
  destruct (codes !! (b :: c)) as [name|]; [|by repeat eexists].
  destruct (outs !! name); by repeat eexists.
Qed.

(** X13: One iteration of the loop of [main.py], over any two tables: it
    ends whenever the capture does; nothing decoded, or a code that is
    not in the table, prints and drives nothing; a code of the table
    prints the name and switches the name's pin on and then off; and
    [KeyError] is raised exactly when the table names a button that
    has no pin, after the name is printed and before any pin is
    touched. *)
Theorem main_cycle_outcome outs codes fuel w pulses w1 :
  read_pulses fuel 100 w = Some (pulses, w1) ->
  exists f w',
    MainLoop.cycle outs codes fuel w = Some (f, w')
    /\ match Main.decode_nec pulses with
       | Ok (Some code) =>
         match codes !! code with
         | Some name =>
           match outs !! name with
           | Some _ => f = None /\ console w' = console w ++ press name
           | None => f = Some (MainLoop.KeyError name)
                     /\ console w' = console w ++ [EvDetected name]
           end
         | None => f = None /\ console w' = console w
         end
       | _ => f = None /\ console w' = console w
       end.
Proof.
  intros Hr.
  destruct (cycle_returns outs codes fuel w pulses w1 Hr) as (f & w' & Hc).
  destruct (cycle_cases _ _ _ _ _ _ Hc) as (pulses' & w1' & Hr' & _ & _ & _ & Hcases).
  rewrite Hr in Hr'. injection Hr' as <- <-. by exists f, w'.
Qed.

(** X14: With the two tables of [main.py] the loop never raises: every
    iteration ends without exception, and after [n] iterations the
    program has printed and driven at most [n] buttons, each a key of
    [outputs], each switched on and then off, and nothing else. *)
Theorem main_loop_runs n fuel w f w' :
  MainLoop.main_loop n fuel w = Some (f, w') ->
  f = None
  /\ exists names,
       (length names <= n)%nat
       /\ Forall (fun name => is_Some (MainLoop.outputs !! name)) names
       /\ console w' = console w ++ concat (map press names).
Proof.
  revert w. induction n as [|n IH]; intros w; cbn [MainLoop.main_loop].
  - intros [= <- <-]. split; [done|]. exists [].
    split; [done|]. split; [constructor|]. by rewrite app_nil_r.
  - destruct (MainLoop.cycle _ _ fuel w) as [[f1 w1]|] eqn:Hc; [|done].
    destruct (cycle_cases _ _ _ _ _ _ Hc) as (pulses & w0 & _ & _ & _ & _ & Hcases).
    assert (f1 = None
            /\ (console w1 = console w
                \/ exists name, is_Some (MainLoop.outputs !! name)
                                /\ console w1 = console w ++ press name))
      as [-> Hcons].
    { destruct (Main.decode_nec pulses) as [[code|]|e]; try (split; [|left]; tauto).
      destruct (MainLoop.button_codes !! code) as [name|] eqn:Hl;
        [|split; [|left]; tauto].
      destruct (main_tables_have_pins _ _ Hl) as [pin Ho]. rewrite Ho in Hcases.
      destruct Hcases as [-> Hcons]. split; [done|]. right. exists name.
      split; [by rewrite Ho|done]. }
    intros H. destruct (IH _ H) as (-> & names & Hlen & Hnames & Hrest).
    split; [done|].
    destruct Hcons as [Hsame | (name & Hname & Hone)].
    + exists names. split; [lia|]. split; [done|]. by rewrite Hrest, Hsame.
    + exists (name :: names). split; [simpl; lia|]. split; [by constructor|].
      rewrite Hrest, Hone. cbn [map concat]. by rewrite <- app_assoc.
Qed.

(** A cycle of the class reads nothing after its capture. *)
Lemma process_positions fuel (d : Debug.decoder) w r d' w2 pulses v1 :
  Debug.process_ir_signal fuel d w = Some (r, d', w2) ->
  read_pulses fuel 100 w = Some (pulses, v1) ->
  pin_pos w2 = pin_pos v1 /\ ms_pos w2 = ms_pos v1 /\ us_pos w2 = us_pos v1.
Proof.
  unfold Debug.process_ir_signal. intros Hp Hr. rewrite Hr in Hp.
  destruct pulses as [|p pulses]; [by injection Hp as _ _ <-|].
  destruct (Debug.decode_nec _ _) as [[code evs]|e]; [|by injection Hp as _ _ <-].
  destruct code as [[|b c]|];
    try (injection Hp as _ _ <-; by destruct (Debug.debug_mode d)).
  destruct (Debug.learning_mode d);
    [injection Hp as _ _ <-; by destruct (Debug.debug_mode d)|].
  destruct (Debug.lookup d (b :: c)) as [name|];
    [|injection Hp as _ _ <-; by destruct (Debug.debug_mode d)].
  injection Hp as _ _ <-. unfold Debug.trigger_output.
  by destruct (Debug.outputs d !! name), (Debug.debug_mode d).
Qed.

(** X15: The two programs agree on the pins.  On the same world and with the
    tables of the decoder object, one iteration of [main.py] and one
    cycle of the class outside learning mode end together, read the
    line and the clocks the same number of times, and drive the same
    pins; they differ only where the table names a button without a
    pin, which is a [KeyError] in [main.py] and a skipped output in the
    class. *)
Theorem main_and_debug_agree fuel (d : Debug.decoder) w :
  Debug.learning_mode d = false ->
  (MainLoop.cycle (Debug.outputs d) (Debug.button_codes d) fuel w = None
   <-> Debug.process_ir_signal fuel d w = None)
  /\ forall f w1 r d' w2,
       MainLoop.cycle (Debug.outputs d) (Debug.button_codes d) fuel w
       = Some (f, w1) ->
       Debug.process_ir_signal fuel d w = Some (r, d', w2) ->
       pin_events w1 = pin_events w2
       /\ pin_pos w1 = pin_pos w2 /\ ms_pos w1 = ms_pos w2 /\ us_pos w1 = us_pos w2
       /\ (f = None
           \/ exists name, f = Some (MainLoop.KeyError name)
                           /\ r = Ok (Some name)
                           /\ Debug.outputs d !! name = None).
Proof.
  intros Hmode. split.
  - unfold MainLoop.cycle, Debug.process_ir_signal.
    destruct (read_pulses fuel 100 w) as [[pulses w1]|] eqn:Hr; [|done].
    destruct (cycle_returns (Debug.outputs d) (Debug.button_codes d) _ _ _ _ Hr)
      as (f & w' & Hc).
    destruct (process_returns fuel d _ _ _ Hr) as (r & d' & w'' & Hp).
    unfold MainLoop.cycle in Hc. unfold Debug.process_ir_signal in Hp.
    rewrite Hr in Hc, Hp. rewrite Hc, Hp. done.
  - intros f w1 r d' w2 Hc Hp.
    destruct (cycle_cases _ _ _ _ _ _ Hc)
      as (pulses & v1 & Hr & Hpp & Hmp & Hup & Hmain).
    destruct (process_positions _ _ _ _ _ _ _ _ Hp Hr) as (Hpp' & Hmp' & Hup').
    destruct (process_idle_cases _ _ _ _ _ _ Hmode Hp)
      as (-> & pulses' & v1' & Hr' & Hdebug).
    rewrite Hr in Hr'. injection Hr' as <- <-.
    assert (forall evs, console w1 = console w ++ evs ->
              pin_events w1 = pin_events w ++ List.filter is_pin_event evs)
      as Hfilter.
    { intros evs Hcon. unfold pin_events. by rewrite Hcon, List.filter_app. }
    assert (console w1 = console w -> pin_events w1 = pin_events w) as Hsame.
    { intros Hcon. unfold pin_events. by rewrite Hcon. }
    split; [|split; [congruence|split; [congruence|split; [congruence|]]]].
    + destruct (Main.decode_nec pulses) as [[code|]|e].
      * unfold Debug.lookup in Hdebug.
        destruct (Debug.button_codes d !! code) as [name|].
        -- destruct Hdebug as [_ ->].
           destruct (Debug.outputs d !! name);
             destruct Hmain as [_ Hcon]; by rewrite (Hfilter _ Hcon).
        -- destruct Hdebug as (_ & -> & _), Hmain as [_ Hcon]. by apply Hsame.
      * destruct Hdebug as [_ ->], Hmain as [_ Hcon]. by apply Hsame.
      * destruct Hdebug as [_ ->], Hmain as [_ Hcon]. by apply Hsame.
    + destruct (Main.decode_nec pulses) as [[code|]|e]; try (left; tauto).
      unfold Debug.lookup in Hdebug.
      destruct (Debug.button_codes d !! code) as [name|]; [|left; tauto].
      destruct (Debug.outputs d !! name) eqn:Ho; [left; tauto|].
      right. exists name. destruct Hdebug as [-> _], Hmain as [-> _]. done.
Qed.

End MainLoopFacts.

(** * The further properties at concrete inputs *)

Section MoreWitnesses.

(** The example frame is valid whatever its marks. *)
Lemma example_frame_valid (mark : nat -> Z) :
  valid_frame (Spec.nec_frame mark Spec.example_bits) Spec.example_bits.
Proof.
  split; [cbn; lia|]. split.
  { exists 9000, 4500. repeat split; try reflexivity; lia. }
  split; [reflexivity|].
  intros k b H.
  do 32 (destruct k as [|k];
         [ cbn in H; injection H as <-; eexists; split; [reflexivity|];
           first [ left; split; [unfold Spec.is_zero_space; simpl; lia | reflexivity]
                 | right; split; [unfold Spec.is_one_space; simpl; lia | reflexivity] ]
         | ]).
  discriminate H.
Qed.

End MoreWitnesses.

Lemma decode_some_iff_witness :
  exists bits,
    valid_frame Examples.frame bits
    /\ [0x61; 0xD6; 0x48; 0xB7] = Spec.pack_msb_first bits.
Proof.
  apply (proj1 (decode_some_iff Examples.frame [0x61; 0xD6; 0x48; 0xB7])).
  vm_compute. reflexivity.
Defined.

Lemma decode_ignores_other_entries_witness :
  Main.decode_nec (<[2%nat := 0%Z]> Examples.frame) = Main.decode_nec Examples.frame.
Proof.
  refine (proj1 (decode_ignores_other_entries Examples.frame 2 0 _ _ _)).
  - lia.
  - lia.
  - intros k Hk. lia.
Defined.

Lemma decode_same_code_iff_witness :
  Main.decode_nec (Spec.nec_frame (fun _ => 560) Spec.example_bits)
  = Main.decode_nec (Spec.nec_frame (fun _ => 600) Spec.example_bits).
Proof.
  apply (proj2 (decode_same_code_iff _ _ _ _
                  (example_frame_valid (fun _ => 560))
                  (example_frame_valid (fun _ => 600)))).
  reflexivity.
Defined.

Lemma read_pulses_durations_witness :
  exists pulses w',
    read_pulses 5 100 (Examples2.ticking 500) = Some (pulses, w')
    /\ length pulses = 100%nat
    /\ Forall (duration_ok 500) pulses.
Proof.
  destruct (read_pulses 5 100 (Examples2.ticking 500)) as [[pulses w']|] eqn:H.
  - exists pulses, w'. split; [reflexivity|]. split.
    + vm_compute in H. injection H as <- _. reflexivity.
    + refine (read_pulses_durations 500 100 (Examples2.ticking 500) _ _ 5 pulses w' H).
      * apply linear_clock_advancing. lia.
      * vm_compute. reflexivity.
  - vm_compute in H. discriminate H.
Defined.

Lemma read_pulses_idle_witness :
  exists fuel w', read_pulses fuel 100 (Examples.idle 50) = Some ([], w').
Proof.
  refine (proj1 (read_pulses_idle 50 100 (Examples.idle 50) _ _ _ _)).
  - apply linear_clock_advancing. lia.
  - lia.
  - vm_compute. reflexivity.
  - intros n Hn. reflexivity.
Defined.

Lemma dispatch_cycle_witness :
  exists r w',
    Debug.process_ir_signal 5 Debug.init (Examples.sending Examples.burst)
    = Some (r, Debug.init, w').
Proof.
  destruct (read_pulses 5 100 (Examples.sending Examples.burst))
    as [[pulses w1]|] eqn:H.
  - destruct (dispatch_cycle 5 Debug.init (Examples.sending Examples.burst)
                pulses w1 eq_refl H) as (r & w' & Hp & _).
    exists r, w'. exact Hp.
  - vm_compute in H. discriminate H.
Defined.

Lemma learn_button_outcomes_witness :
  match Debug.learn_button 5 Debug.init "UP" (Examples.sending Examples.burst) with
  | Some (_, _, w') => pin_events w' = []
  | None => False
  end.
Proof.
  destruct (Debug.learn_button 5 Debug.init "UP" (Examples.sending Examples.burst))
    as [[[r d'] w']|] eqn:H.
  - exact (proj1 (learn_button_outcomes _ _ _ _ _ _ _ H)).
  - vm_compute in H. discriminate H.
Defined.

Lemma names_have_pins_kept_witness :
  match Debug.learn_button 5 Debug.init "UP" (Examples.sending Examples.burst) with
  | Some (_, d', _) => names_have_pins d'
  | None => False
  end.
Proof.
  destruct (Debug.learn_button 5 Debug.init "UP" (Examples.sending Examples.burst))
    as [[[r d'] w']|] eqn:H.
  - exact (proj1 (proj2 names_have_pins_kept) _ _ _ _ _ _ _
                 (proj1 names_have_pins_kept) H).
  - vm_compute in H. discriminate H.
Defined.

Lemma learned_code_recognised_witness :
  exists d' w' code,
    Debug.learn_button 5 Debug.init "UP" (Examples.sending Examples.burst)
    = Some (Ok true, d', w')
    /\ Debug.lookup d' code = Some "UP"%string.
Proof.
  assert (exists d' w',
            Debug.learn_button 5 Debug.init "UP" (Examples.sending Examples.burst)
            = Some (Ok true, d', w')) as (d' & w' & H).
  { eexists. eexists. vm_compute. reflexivity. }
  destruct (learned_code_recognised _ _ _ _ _ _ H) as (code & _ & Hl & _).
  exists d', w', code. split; [exact H | exact Hl].
Defined.

Lemma continuous_cycles_outcome_witness :
  match DebugRun.continuous_cycles 1 5 Debug.init
          (Examples.sending Examples.burst) with
  | Some (r, d', _) => r = Ok tt /\ d' = Debug.init
  | None => False
  end.
Proof.
  destruct (DebugRun.continuous_cycles 1 5 Debug.init
              (Examples.sending Examples.burst)) as [[[r d'] w']|] eqn:H.
  - destruct (continuous_cycles_outcome 1 5 Debug.init _ _ _ _ eq_refl H)
      as (Hr & Hd & _).
    split; [exact Hr | exact Hd].
  - vm_compute in H. discriminate H.
Defined.

Lemma main_cycle_outcome_witness :
  exists f w',
    MainLoop.cycle MainLoop.outputs MainLoop.button_codes 5
                   (Examples.sending Examples.burst)
    = Some (f, w').
Proof.
  destruct (read_pulses 5 100 (Examples.sending Examples.burst))
    as [[pulses w1]|] eqn:H.
  - destruct (main_cycle_outcome MainLoop.outputs MainLoop.button_codes 5
                (Examples.sending Examples.burst) pulses w1 H) as (f & w' & Hc & _).
    exists f, w'. exact Hc.
  - vm_compute in H. discriminate H.
Defined.

Lemma main_loop_runs_witness :
  match MainLoop.main_loop 1 5 (Examples.sending Examples.burst) with
  | Some (f, _) => f = None
  | None => False
  end.
Proof.
  destruct (MainLoop.main_loop 1 5 (Examples.sending Examples.burst))
    as [[f w']|] eqn:H.
  - exact (proj1 (main_loop_runs _ _ _ _ _ H)).
  - vm_compute in H. discriminate H.
Defined.

Lemma main_and_debug_agree_witness :
  MainLoop.cycle (Debug.outputs Debug.init) (Debug.button_codes Debug.init) 5
                 (Examples.sending Examples.burst) = None
  <-> Debug.process_ir_signal 5 Debug.init (Examples.sending Examples.burst) = None.
Proof.
  exact (proj1 (main_and_debug_agree 5 Debug.init
                  (Examples.sending Examples.burst) eq_refl)).
Defined.
